(** * Bayesian linear regression example (examples/bayesian_linear_regression.py)

    A shallow embedding of the example script: the [LinearModel] class
    ([__init__], [mapping], [log_prob]), the toy dataset generator
    [build_toy_dataset] and the progress callback [print_progress].

    Conventions of the embedding.
    - Floating point numbers are idealised as exact rationals [Q]; every
      arithmetic operation is written with the operator and in the order
      the source has it, so results are compared with Leibniz equality
      where the order of operations is the same and with [Qeq]/[Qlt]
      where algebra is involved.
    - A TensorFlow tensor or NumPy array is a shape together with its
      entries in row-major order.
    - An operation that raises in Python returns [None].
    - The global random state is threaded explicitly.
    - The script is read as Python 2: [n_data/2] divides integers.
    - TensorFlow, NumPy and the rest of the library are not part of the
      script; their operations are modelled from their documented
      behaviour, each next to the call it stands for. *)

From Stdlib Require Import List Arith ZArith QArith Qabs Lia Lqa Bool Permutation.
From Stdlib Require DecimalPos DecimalZ.
From Stdlib Require String Ascii DecimalString.
Import ListNotations.

Open Scope nat_scope.

(** ** Errors as [option] *)

Definition bind {A B : Type} (x : option A) (f : A -> option B) : option B :=
  match x with
  | Some a => f a
  | None => None
  end.

Notation "'do' x <- e ; k" := (bind e (fun x => k))
  (at level 10, x name, e at level 100, k at level 200).

Fixpoint mapM {A B : Type} (f : A -> option B) (l : list A) : option (list B) :=
  match l with
  | [] => Some []
  | a :: l' =>
      do b <- f a;
      do bs <- mapM f l';
      Some (b :: bs)
  end.

(** ** Tensors *)

Record tensor : Type := mkT { shape : list nat; data : list Q }.

(** Number of entries of a tensor of a given shape. *)
Definition numel (s : list nat) : nat := fold_right Nat.mul 1 s.

Definition wf (t : tensor) : Prop := length (data t) = numel (shape t).

Definition rank (t : tensor) : nat := length (shape t).

(** The [i]-th block of [sz] consecutive entries. *)
Definition chunk (sz i : nat) (d : list Q) : list Q := firstn sz (skipn (i * sz) d).

(** The first [k] blocks of [sz] entries each. *)
Definition chunks (sz k : nat) (d : list Q) : list (list Q) :=
  map (fun i => chunk sz i d) (seq 0 k).

(** Sum of a list in index order, as a reduction does it. *)
Definition qsum (l : list Q) : Q := fold_left Qplus l 0%Q.

Fixpoint map2 (f : Q -> Q -> Q) (l1 l2 : list Q) : list Q :=
  match l1, l2 with
  | a :: l1', b :: l2' => f a b :: map2 f l1' l2'
  | _, _ => []
  end.

(** *** Matrices by rows *)

(** The matrix with the given rows of [c] entries, and the vector with the
    given entries. *)
Definition mat (c : nat) (L : list (list Q)) : tensor := mkT [length L; c] (concat L).
Definition vec (l : list Q) : tensor := mkT [length l] l.

(** The rows of a matrix. *)
Definition rows (t : tensor) : list (list Q) :=
  match shape t with
  | [a; b] => chunks b a (data t)
  | _ => []
  end.

Definition uniform (c : nat) (L : list (list Q)) : Prop := Forall (fun r => length r = c) L.

(** *** Element-wise operations with a Python scalar *)

Definition t_map (f : Q -> Q) (t : tensor) : tensor := mkT (shape t) (map f (data t)).

(** Unary minus on a tensor. *)
Definition t_neg : tensor -> tensor := t_map Qopp.
(** [c * t] for a Python float [c]. *)
Definition t_scale (c : Q) : tensor -> tensor := t_map (Qmult c).
(** [t / c] for a Python float [c]. *)
Definition t_div (t : tensor) (c : Q) : tensor := t_map (fun a => a / c)%Q t.
(** [t - c] for a Python float [c]. *)
Definition t_sub_scalar (t : tensor) (c : Q) : tensor := t_map (fun a => a - c)%Q t.
(** [tf.pow(t, 2)]. *)
Definition tf_pow2 : tensor -> tensor := t_map (fun a => a ^ 2)%Q.

(** *** Broadcasting binary operations *)

(** Shapes are aligned on the right; the shorter one is padded with ones. *)
Definition pad (r : nat) (s : list nat) : list nat := repeat 1 (r - length s) ++ s.

(** Result shape of a broadcast of two shapes of the same rank. *)
Fixpoint bshape (s1 s2 : list nat) : option (list nat) :=
  match s1, s2 with
  | [], [] => Some []
  | a :: s1', b :: s2' =>
      do s <- bshape s1' s2';
      if a =? b then Some (a :: s)
      else if a =? 1 then Some (b :: s)
      else if b =? 1 then Some (a :: s)
      else None
  | _, _ => None
  end.

(** Entries of a broadcast of two tensors with shapes of the same rank. *)
Fixpoint bdata (f : Q -> Q -> Q) (s1 s2 : list nat) (d1 d2 : list Q) : list Q :=
  match s1, s2 with
  | a :: s1', b :: s2' =>
      if a =? b then
        flat_map (fun i => bdata f s1' s2' (chunk (numel s1') i d1) (chunk (numel s2') i d2))
                 (seq 0 a)
      else if a =? 1 then
        flat_map (fun i => bdata f s1' s2' d1 (chunk (numel s2') i d2)) (seq 0 b)
      else
        flat_map (fun i => bdata f s1' s2' (chunk (numel s1') i d1) d2) (seq 0 a)
  | _, _ => [f (hd 0%Q d1) (hd 0%Q d2)]
  end.

Definition broadcast (f : Q -> Q -> Q) (t1 t2 : tensor) : option tensor :=
  let r := Nat.max (rank t1) (rank t2) in
  let s1 := pad r (shape t1) in
  let s2 := pad r (shape t2) in
  do s <- bshape s1 s2;
  Some (mkT s (bdata f s1 s2 (data t1) (data t2))).

Definition t_add : tensor -> tensor -> option tensor := broadcast Qplus.
Definition t_sub : tensor -> tensor -> option tensor := broadcast Qminus.
Definition t_mul : tensor -> tensor -> option tensor := broadcast Qmult.

(** *** Shape manipulation *)

(** [tf.reshape(t, s)]: the number of entries must agree. *)
Definition tf_reshape (t : tensor) (s : list nat) : option tensor :=
  if numel s =? length (data t) then Some (mkT s (data t)) else None.

(** [tf.squeeze(t)] without a dimension list: every dimension of size one
    is removed. *)
Definition tf_squeeze (t : tensor) : tensor :=
  mkT (filter (fun d => negb (d =? 1)) (shape t)) (data t).

(** [t[:k]], a slice of the first axis. *)
Definition slice_to (t : tensor) (k : nat) : option tensor :=
  match shape t with
  | [] => None
  | d :: s => Some (mkT (Nat.min k d :: s) (firstn (Nat.min k d * numel s) (data t)))
  end.

(** [t[k:]], a slice of the first axis. *)
Definition slice_from (t : tensor) (k : nat) : option tensor :=
  match shape t with
  | [] => None
  | d :: s => Some (mkT ((d - k) :: s) (skipn (Nat.min k d * numel s) (data t)))
  end.

(** [t[:, 0]]: entry 0 of the second axis, which disappears. *)
Definition col0 (t : tensor) : option tensor :=
  match shape t with
  | a :: b :: s =>
      if b =? 0 then None
      else Some (mkT (a :: s)
                     (flat_map (firstn (numel s)) (chunks (b * numel s) a (data t))))
  | _ => None
  end.

(** [t[:, 1:]]: the second axis without its entry 0. *)
Definition cols_from1 (t : tensor) : option tensor :=
  match shape t with
  | a :: b :: s =>
      Some (mkT (a :: (b - 1) :: s)
                (flat_map (skipn (numel s)) (chunks (b * numel s) a (data t))))
  | _ => None
  end.

(** [tf.unpack(t)]: the list of the sub-tensors along the first axis. *)
Definition tf_unpack (t : tensor) : option (list tensor) :=
  match shape t with
  | [] => None
  | d :: s => Some (map (mkT s) (chunks (numel s) d (data t)))
  end.

Definition list_nat_eqb (s1 s2 : list nat) : bool :=
  if list_eq_dec Nat.eq_dec s1 s2 then true else false.

(** [tf.pack(ts)]: a non-empty list of tensors of one shape is stacked
    along a new first axis. *)
Definition tf_pack (ts : list tensor) : option tensor :=
  match ts with
  | [] => None
  | t :: _ =>
      if forallb (fun u => list_nat_eqb (shape u) (shape t)) ts
      then Some (mkT (length ts :: shape t) (flat_map data ts))
      else None
  end.

(** *** Reductions and products *)

(** Sum of the [k] blocks of size [sz], entry by entry. *)
Definition sum_blocks (sz k : nat) (d : list Q) : list Q :=
  map (fun j => qsum (map (fun i => nth (i * sz + j) d 0%Q) (seq 0 k))) (seq 0 sz).

(** Shape and entries of [tf.reduce_sum(t, axis)]. *)
Fixpoint reduce_shape (axis : nat) (s : list nat) : option (list nat) :=
  match s, axis with
  | [], _ => None
  | _ :: s', 0 => Some s'
  | d :: s', S ax => do r <- reduce_shape ax s'; Some (d :: r)
  end.

Fixpoint reduce_data (axis : nat) (s : list nat) (d : list Q) : list Q :=
  match s, axis with
  | [], _ => []
  | k :: s', 0 => sum_blocks (numel s') k d
  | k :: s', S ax => flat_map (reduce_data ax s') (chunks (numel s') k d)
  end.

Definition tf_reduce_sum (t : tensor) (axis : nat) : option tensor :=
  do s <- reduce_shape axis (shape t);
  Some (mkT s (reduce_data axis (shape t) (data t))).

(** Inner product, summed in index order. *)
Definition dot (u v : list Q) : Q := qsum (map2 Qmult u v).

(** Column [j] of a matrix with [k] rows of [n] entries. *)
Definition column (n k j : nat) (d : list Q) : list Q :=
  map (fun i => nth (i * n + j) d 0%Q) (seq 0 k).

(** [tf.matmul(a, b)] for matrices; the inner dimensions must agree. *)
Definition tf_matmul (a b : tensor) : option tensor :=
  match shape a, shape b with
  | [p; q], [q'; r] =>
      if q =? q' then
        Some (mkT [p; r]
                  (flat_map (fun row => map (fun j => dot row (column r q j (data b))) (seq 0 r))
                            (chunks q p (data a))))
      else None
  | _, _ => None
  end.

(** ** The model *)

Module LinearModel.

Record t : Type := mk {
  weight_dim : list nat;
  lik_variance : Q;
  prior_variance : Q;
  num_vars : nat
}.

(** [__init__]: [weight_dim[0]] and [weight_dim[1]] raise on a list that is
    too short. *)
Definition init (wd : list nat) (lik_var prior_var : Q) : option t :=
  do m <- nth_error wd 0;
  do n <- nth_error wd 1;
  Some (mk wd lik_var prior_var ((m + 1) * n)).

(** The defaults of the keyword arguments. *)
Definition default_variance : Q := 1 # 100.

(** [mapping(self, x, z)]. *)
Definition mapping (self : t) (x z : tensor) : option tensor :=
  do m <- nth_error (weight_dim self) 0;
  do n <- nth_error (weight_dim self) 1;
  do zW <- slice_to z (m * n);
  do W <- tf_reshape zW [m; n];
  do zb <- slice_from z (m * n);
  do b <- tf_reshape zb [1; n];
  do xW <- tf_matmul x W;
  do h <- t_add xW b;
  Some (tf_squeeze h).

(** Line 78: [log_prior = -self.prior_variance * tf.reduce_sum(zs*zs, 1)]. *)
Definition log_prior (self : t) (zs : tensor) : option tensor :=
  do sq <- t_mul zs zs;
  do s <- tf_reduce_sum sq 1;
  Some (t_scale (- prior_variance self)%Q s).

(** Lines 79 to 81: the stacked predictions and the log likelihood. *)
Definition log_lik (self : t) (x y zs : tensor) : option tensor :=
  do zl <- tf_unpack zs;
  do ml <- mapM (mapping self x) zl;
  do mus <- tf_pack ml;
  do r <- t_sub mus y;
  do s <- tf_reduce_sum (tf_pow2 r) 1;
  Some (t_div (t_neg s) (lik_variance self)).

(** [log_prob(self, xs, zs)]. *)
Definition log_prob (self : t) (xs zs : tensor) : option tensor :=
  do y <- col0 xs;
  do x <- cols_from1 xs;
  do lp <- log_prior self zs;
  do ll <- log_lik self x y zs;
  t_add ll lp.

End LinearModel.

(** ** The quantities the description of the model names

    These follow the words of the docstrings and of the description of the
    model, not the tensor program; the properties below compare the two. *)

(** The shape [tf.squeeze] leaves of a [k] by [n] matrix. *)
Definition squeezed (k n : nat) : list nat := filter (fun d => negb (d =? 1)) [k; n].

(** The prediction for one input row: the row times the weights, plus the
    bias. *)
Definition predict (m : nat) (z r : list Q) : Q := (dot r (firstn m z) + nth m z 0)%Q.

(** The two terms of the joint density for one weight vector [z], as the
    docstring and the comments of [log_prob] describe them: [X] holds the
    rows of the dataset (output first, then the inputs). *)
Definition log_prior_of (prior_var : Q) (z : list Q) : Q :=
  (- prior_var * qsum (map (fun a => a * a) z))%Q.

Definition log_lik_of (lik_var : Q) (m : nat) (X : list (list Q)) (z : list Q) : Q :=
  (- qsum (map (fun row => (predict m z (tl row) - hd 0 row) ^ 2) X) / lik_var)%Q.

Definition joint_of (self : LinearModel.t) (m : nat) (X : list (list Q)) (z : list Q) : Q :=
  (log_lik_of (LinearModel.lik_variance self) m X z
   + log_prior_of (LinearModel.prior_variance self) z)%Q.

(** ** NumPy arrays

    NumPy arrays are tensors as well; the operations below are the ones
    [build_toy_dataset] uses. *)

(** [np.linspace(start, stop, num)]: [num] evenly spaced values, the first
    one [start] and, for [num > 1], the last one [stop]. *)
(** The distance between two consecutive values of [np.linspace]. *)
Definition spacing (start stop : Q) (num : nat) : Q :=
  ((stop - start) / inject_Z (Z.of_nat (num - 1)))%Q.

Definition np_linspace (start stop : Q) (num : nat) : list Q :=
  let step := spacing start stop num in
  map (fun i => (inject_Z (Z.of_nat i) * step + start)%Q) (seq 0 num).

(** [np.concatenate((a, b), axis=1)] for two matrices with the same number
    of rows. *)
Definition np_concatenate1 (a b : tensor) : option tensor :=
  match shape a, shape b with
  | [r; c], [r'; c'] =>
      if r =? r' then
        Some (mkT [r; c + c']
                  (flat_map (fun i => chunk c i (data a) ++ chunk c' i (data b)) (seq 0 r)))
      else None
  | _, _ => None
  end.

(** [tf.constant(data, dtype=tf.float32)]; the rounding to single precision
    is not modelled. *)
Definition tf_constant (a : tensor) : tensor := a.

(** ** The global random state and the dataset generator *)

Section Generator.

(** The state of NumPy's global generator, its initialisation from a seed
    ([np.random.seed]) and one standard normal draw are left abstract. *)
Variable rng : Type.
Variable seed_rng : Z -> rng.
Variable standard_normal : rng -> Q * rng.

(** The global state: NumPy's generator and TensorFlow's graph-level seed. *)
Record global : Type := mkGlobal { np_random : rng; tf_seed : option Z }.

(** Modelled from the spec: [ed.set_seed] belongs to the library, which is
    not among the sources; it sets the seed of both NumPy and TensorFlow,
    whatever the state was. *)
Definition set_seed (x : Z) (g : global) : global := mkGlobal (seed_rng x) (Some x).

(** [size] standard normal draws, in order. *)
Fixpoint draws (size : nat) (r : rng) : list Q * rng :=
  match size with
  | 0 => ([], r)
  | S k =>
      let (v, r1) := standard_normal r in
      let (vs, r2) := draws k r1 in
      (v :: vs, r2)
  end.

(** [norm.rvs(loc, scale, size=size)] on the global generator, as SciPy
    carries it out: a negative [scale] raises before anything is drawn; for
    [scale = 0] the result is [loc * ones(size)] and nothing is drawn;
    otherwise [size] standard normal draws are scaled and shifted. *)
Definition norm_rvs (loc scale : Q) (size : nat) (g : global) : option tensor * global :=
  if negb (Qle_bool 0 scale) then (None, g)
  else if Qeq_bool scale 0 then (Some (vec (map (Qmult loc) (repeat 1%Q size))), g)
  else
    let (vs, r) := draws size (np_random g) in
    (Some (vec (map (fun v => v * scale + loc)%Q vs)), mkGlobal r (tf_seed g)).

(** [build_toy_dataset(n_data, noise_std)]; [n_data/2] is the integer
    division of Python 2. The result comes with the global state the call
    leaves behind, also when it raises. *)
Definition build_toy_dataset (n_data : nat) (noise_std : Q) (g : global)
  : option tensor * global :=
  let g0 := set_seed 0 g in
  let D := 1 in
  let x := vec (np_linspace 0 2 (n_data / 2) ++ np_linspace 6 8 (n_data / 2)) in
  let (noise, g1) := norm_rvs 0 noise_std n_data g0 in
  (do noise <- noise;
   do y <- t_add (t_scale (75 # 1000) x) noise;
   let x := t_div (t_sub_scalar x 4) 4 in
   do x <- tf_reshape x [n_data; D];
   do y <- tf_reshape y [n_data; 1];
   do data <- np_concatenate1 y x;
   Some (tf_constant data),
   g1).

(** The defaults of the keyword arguments. *)
Definition default_n_data : nat := 40.
Definition default_noise_std : Q := 1 # 10.

(** The noise the description of the generator names: [n] normal draws
    from the generator seeded with 0, scaled by [noise_std]; no noise at
    all for [noise_std = 0]. *)
Definition noise_of (n : nat) (noise_std : Q) : list Q :=
  if Qeq_bool noise_std 0 then map (Qmult 0) (repeat 1%Q n)
  else map (fun v => v * noise_std + 0)%Q (fst (draws n (seed_rng 0))).

(** The inputs before rescaling. *)
Definition inputs_of (n : nat) : list Q :=
  np_linspace 0 2 (n / 2) ++ np_linspace 6 8 (n / 2).

(** One row of the table: the output, then the rescaled input. *)
Definition sample_row (p : Q * Q) : list Q :=
  [(75 # 1000) * fst p + snd p; (fst p - 4) / 4]%Q.

End Generator.

Arguments mkGlobal {rng}.
Arguments np_random {rng}.
Arguments tf_seed {rng}.
Arguments set_seed {rng}.
Arguments draws {rng}.
Arguments norm_rvs {rng}.
Arguments build_toy_dataset {rng}.
Arguments noise_of {rng}.

(** A small generator to run the definitions on: a linear congruential
    state, and draws among the integers from -3 to 3. *)
Definition lcg_seed (x : Z) : Z := x.
Definition lcg_normal (r : Z) : Q * Z :=
  (inject_Z (r mod 7 - 3), (r * 5 + 3) mod 101)%Z.

(** ** The curves the callback draws *)

(** Entry [j] of [x.W + b] for one input row, read off the flat weight
    vector [z]: the weight matrix holds the first [m*n] entries row by row,
    the bias the [n] entries after them. *)
Definition affine (m n : nat) (z row : list Q) (j : nat) : Q :=
  (dot row (column n m j z) + nth (m * n + j) z 0)%Q.

(** [tf.expand_dims(t, dim)]: a dimension of size one is inserted at
    position [dim]. *)
Definition tf_expand_dims (t : tensor) (dim : nat) : option tensor :=
  if dim <=? rank t
  then Some (mkT (firstn dim (shape t) ++ 1 :: skipn dim (shape t)) (data t))
  else None.

(** The number of sampled functions and of input points of the plot. *)
Definition plot_samples : nat := 10.
Definition plot_points : nat := 400.

Section Plot.

Variable rng : Type.
Variable seed_rng : Z -> rng.
Variable standard_normal : rng -> Q * rng.

(** [rs.randn(r, c)] on a generator of its own. *)
Definition randn (r c : nat) (rs : rng) : tensor * rng :=
  let (vs, rs') := draws standard_normal (r * c) rs in
  (mkT [r; c] vs, rs').

(** Lines 113 to 120 of [print_progress]: the weight vectors sampled from
    the variational model with the current [mean] and [std] (the values of
    [self.variational.m] and [self.variational.s]), and the predictions of
    the model for them on the input points of the plot. *)
Definition sample_functions (model : LinearModel.t) (variational_num_vars : nat)
    (mean std : tensor) : option tensor :=
  let rs := seed_rng 0 in
  let (noise, _) := randn plot_samples variational_num_vars rs in
  do scaled <- t_mul noise std;
  do zs <- t_add scaled mean;
  let zs := tf_constant zs in
  let inputs := vec (np_linspace (-8) 8 plot_points) in
  do x <- tf_expand_dims (tf_constant inputs) 1;
  do zl <- tf_unpack zs;
  do ml <- mapM (LinearModel.mapping model x) zl;
  tf_pack ml.

(** The weight vectors of the plot, as line 115 describes them: row [s] of
    the standard normal draws, times [std], plus [mean]. *)
Definition sampled_weights (variational_num_vars : nat) (mean std : list Q)
  : list (list Q) :=
  map (fun e => map2 Qplus (map2 Qmult e std) mean)
      (chunks variational_num_vars plot_samples
              (fst (draws standard_normal (plot_samples * variational_num_vars)
                          (seed_rng 0)))).

End Plot.

Arguments randn {rng}.
Arguments sample_functions {rng}.
Arguments sampled_weights {rng}.

(** ** The progress callback *)

(** [t[:, j]]: entry [j] of the second axis, which disappears. *)
Definition col_at (j : nat) (t : tensor) : option tensor :=
  match shape t with
  | a :: b :: s =>
      if j <? b
      then Some (mkT (a :: s)
                     (flat_map (fun row => firstn (numel s) (skipn (j * numel s) row))
                               (chunks (b * numel s) a (data t))))
      else None
  | _ => None
  end.

(** Modelled from the spec: the variational family and the inference
    object belong to the library, which is not among the sources. They are
    reduced to the attributes the callback reads: of [self.variational] its
    [num_vars] and the current values of [m] and [s] (what [sess.run]
    returns), of [self] its [n_print], [model], [variational] and the tensor
    [data.data]. *)
Module MFGaussian.
Record t : Type := mk { num_vars : nat; m : tensor; s : tensor }.
End MFGaussian.

Module MFVI.
Record t : Type := mk {
  n_print : Z;
  model : LinearModel.t;
  variational : MFGaussian.t;
  data : tensor
}.
End MFVI.

Module Progress.

Import String.
Local Open Scope string_scope.

(** What a call of the callback does that can be observed, call by call:
    [print(line)], [plt.cla()], [ax.plot(x, y, 'bx')],
    [ax.plot(inputs, outputs.T)] (recorded with [outputs], of which the
    call plots the transpose), [ax.set_ylim([lo, hi])], [plt.draw()].
    The checks matplotlib makes on its arguments are not modelled. *)
Inductive event : Type :=
  | Stdout (line : string)
  | Cla
  | PlotPoints (x y : tensor)
  | PlotCurves (inputs : list Q) (outputs : tensor)
  | SetYlim (lo hi : Z)
  | Draw.

(** What was emitted, and whether the call ended by raising. *)
Record outcome : Type := mkOutcome { emitted : list event; raised : bool }.

(** ["%d" % t]. *)
Definition fmt_d (t : Z) : string := DecimalString.NilZero.string_of_int (Z.to_int t).

(** [x] rounded to the nearest integer, ties to the even one, for [x >= 0]
    given as a fraction. *)
Definition round_half_even (num den : Z) : Z :=
  let fl := (num / den)%Z in
  let r := (num mod den)%Z in
  if (2 * r <? den)%Z then fl
  else if (den <? 2 * r)%Z then (fl + 1)%Z
  else if Z.even fl then fl else (fl + 1)%Z.

(** ["%.2f" % x]: the sign, the integer part, a point and two decimals. *)
Definition fmt_2f (x : Q) : string :=
  let n := round_half_even (Z.abs (Qnum x) * 100) (Zpos (Qden x)) in
  (if (Qnum x <? 0)%Z then "-" else "")
  ++ fmt_d (n / 100) ++ "." ++ fmt_d (n mod 100 / 10) ++ fmt_d (n mod 10).

(** [np.mean(losses)]; the mean of no value at all is not a number. *)
Definition np_mean (losses : list Q) : option Q :=
  match losses with
  | [] => None
  | _ => Some (qsum losses / inject_Z (Z.of_nat (List.length losses)))%Q
  end.

Definition fmt_mean (losses : list Q) : string :=
  match np_mean losses with
  | Some x => fmt_2f x
  | None => "nan"
  end.

(** ["iter %d loss %.2f " % (t, np.mean(losses))]. *)
Definition progress_line (t : Z) (losses : list Q) : string :=
  "iter " ++ fmt_d t ++ " loss " ++ fmt_mean losses ++ " ".

Section Callback.

Variable rng : Type.
Variable seed_rng : Z -> rng.
Variable standard_normal : rng -> Q * rng.

(** [print_progress(self, t, losses, sess)]. [t % 0] raises before
    anything is printed. At a multiple of [n_print] the line is printed
    first; the sampled functions and the two columns of the data are
    computed next, and the figure is redrawn only if none of this raises. *)
Definition print_progress (self : MFVI.t) (t : Z) (losses : list Q) : outcome :=
  if (MFVI.n_print self =? 0)%Z then mkOutcome [] true
  else if (t mod MFVI.n_print self =? 0)%Z then
    let line := Stdout (progress_line t losses) in
    let variational := MFVI.variational self in
    match sample_functions seed_rng standard_normal (MFVI.model self)
                           (MFGaussian.num_vars variational)
                           (MFGaussian.m variational) (MFGaussian.s variational) with
    | None => mkOutcome [line] true
    | Some outputs =>
        match col_at 0 (MFVI.data self), col_at 1 (MFVI.data self) with
        | Some y, Some x =>
            mkOutcome [line; Cla; PlotPoints x y;
                       PlotCurves (np_linspace (- (8)) 8 plot_points) outputs;
                       SetYlim (-2) 3; Draw]
                      false
        | _, _ => mkOutcome [line] true
        end
    end
  else mkOutcome [] false.

End Callback.

Arguments print_progress {rng}.




End Progress.

(** ** Concrete inputs *)

(** The model of the script, [LinearModel(weight_dim=[1,1])], a dataset of
    three rows and a minibatch of two weight vectors. *)
Definition model11 : LinearModel.t := LinearModel.mk [1; 1] (1 # 100) (1 # 100) 2.
Definition data3 : tensor := mkT [3; 2] [1; 2; 3; 4; 5; 6]%Q.
Definition batch2 : tensor := mkT [2; 2] [1; 0; 2; 1]%Q.

(** A dataset on the line [y = 2 x + 1] and the weight vector of that
    line; the dataset of three rows in another order; the two datasets one
    after the other. *)
Definition data_on_line : tensor := mkT [2; 2] [3; 1; 5; 2]%Q.
Definition batch_line : tensor := mkT [1; 2] [2; 1]%Q.
Definition data3_swapped : tensor := mkT [3; 2] [3; 4; 1; 2; 5; 6]%Q.
Definition data_both : tensor := mkT [5; 2] [3; 1; 5; 2; 1; 2; 3; 4; 5; 6]%Q.

(** A global state, the weight vector of the generating line in the
    coordinates of the table, and a model with two input dimensions. *)
Definition state17 : global Z := mkGlobal 17%Z None.
Definition batch_true_line : tensor := mkT [1; 2] [3 # 10; 3 # 10]%Q.
Definition model21 : LinearModel.t := LinearModel.mk [2; 1] (1 # 100) (1 # 100) 3.

(** The inference object of the script ([n_print = 5], the model with one
    input and one output dimension) with zero mean and unit standard
    deviation on the dataset of three rows, and one with a model of two
    input dimensions. *)
Definition unit_family : MFGaussian.t := MFGaussian.mk 2 (mkT [2] [0; 0]%Q) (mkT [2] [1; 1]%Q).
Definition inference5 : MFVI.t := MFVI.mk 5 model11 unit_family data3.
Definition inference5_two_inputs : MFVI.t :=
  MFVI.mk 5 model21 (MFGaussian.mk 3 (mkT [3] [0; 0; 0]%Q) (mkT [3] [1; 1; 1]%Q))
          (mkT [2; 3] [1; 2; 3; 4; 5; 6]%Q).

(** * Properties *)

(** ** Lists cut into blocks *)

Lemma chunk_0 (sz : nat) (d : list Q) : chunk sz 0 d = firstn sz d.
Proof. reflexivity. Qed.

Lemma chunk_S (sz i : nat) (d : list Q) : chunk sz (S i) d = chunk sz i (skipn sz d).
Proof.
  unfold chunk. rewrite skipn_skipn. do 2 f_equal. simpl. lia.
Qed.

Lemma map_seq_S {A : Type} (g : nat -> A) (k : nat) :
  map g (seq 0 (S k)) = g 0 :: map (fun i => g (S i)) (seq 0 k).
Proof.
  simpl. f_equal. rewrite <- seq_shift, map_map. reflexivity.
Qed.

Lemma flat_map_seq_S {A : Type} (g : nat -> list A) (k : nat) :
  flat_map g (seq 0 (S k)) = g 0 ++ flat_map (fun i => g (S i)) (seq 0 k).
Proof.
  rewrite !flat_map_concat_map, map_seq_S. reflexivity.
Qed.

Lemma chunks_S (sz k : nat) (d : list Q) :
  chunks sz (S k) d = firstn sz d :: chunks sz k (skipn sz d).
Proof.
  unfold chunks. rewrite map_seq_S, chunk_0. f_equal.
  apply map_ext. intros i. apply chunk_S.
Qed.

Lemma chunks_length (sz k : nat) (d : list Q) : length (chunks sz k d) = k.
Proof. unfold chunks. rewrite length_map, length_seq. reflexivity. Qed.

Lemma chunks_app (sz k : nat) (r rest : list Q) :
  length r = sz -> chunks sz (S k) (r ++ rest) = r :: chunks sz k rest.
Proof.
  intros H. rewrite chunks_S. subst sz.
  rewrite firstn_app, Nat.sub_diag, firstn_all, firstn_O, app_nil_r.
  rewrite skipn_app, Nat.sub_diag, skipn_all, skipn_O. reflexivity.
Qed.

(** A matrix given by its rows is recovered by cutting its entries. *)
Lemma chunks_concat (sz : nat) (L : list (list Q)) :
  Forall (fun r => length r = sz) L -> chunks sz (length L) (concat L) = L.
Proof.
  induction 1 as [|r L Hr _ IH]; simpl.
  - reflexivity.
  - rewrite chunks_app by exact Hr. f_equal. exact IH.
Qed.

Lemma concat_chunks (sz k : nat) (d : list Q) :
  length d = k * sz -> concat (chunks sz k d) = d.
Proof.
  revert d. induction k as [|k IH]; intros d H.
  - destruct d; [reflexivity | discriminate].
  - rewrite chunks_S. simpl. rewrite IH.
    + apply firstn_skipn.
    + rewrite length_skipn. simpl in H. lia.
Qed.

Lemma chunks_rows (sz k : nat) (d : list Q) :
  length d = k * sz -> Forall (fun r => length r = sz) (chunks sz k d).
Proof.
  revert d. induction k as [|k IH]; intros d H.
  - constructor.
  - rewrite chunks_S. constructor.
    + rewrite length_firstn. simpl in H. lia.
    + apply IH. rewrite length_skipn. simpl in H. lia.
Qed.

Lemma concat_rows_length (sz : nat) (L : list (list Q)) :
  Forall (fun r => length r = sz) L -> length (concat L) = length L * sz.
Proof.
  induction 1 as [|r L Hr _ IH]; simpl.
  - reflexivity.
  - rewrite length_app, IH, Hr. reflexivity.
Qed.

(** ** Element-wise operations on lists *)

Lemma map2_nil_r (f : Q -> Q -> Q) (l : list Q) : map2 f l [] = [].
Proof. destruct l; reflexivity. Qed.

Lemma map2_length (f : Q -> Q -> Q) (l1 l2 : list Q) :
  length l1 = length l2 -> length (map2 f l1 l2) = length l1.
Proof.
  revert l2. induction l1 as [|a l1 IH]; intros [|b l2] H; simpl in *;
    try discriminate; auto.
Qed.

Lemma map2_split (f : Q -> Q -> Q) (n : nat) (l1 l2 : list Q) :
  map2 f (firstn n l1) (firstn n l2) ++ map2 f (skipn n l1) (skipn n l2) = map2 f l1 l2.
Proof.
  revert l1 l2. induction n as [|n IH]; intros l1 l2.
  - reflexivity.
  - destruct l1 as [|a l1]; [reflexivity|].
    destruct l2 as [|b l2]; simpl.
    + apply map2_nil_r.
    + f_equal. apply IH.
Qed.

Lemma map2_diag (f : Q -> Q -> Q) (l : list Q) : map2 f l l = map (fun a => f a a) l.
Proof. induction l; simpl; congruence. Qed.

Lemma map2_map (f : Q -> Q -> Q) {A : Type} (g h : A -> Q) (l : list A) :
  map2 f (map g l) (map h l) = map (fun a => f (g a) (h a)) l.
Proof. induction l; simpl; congruence. Qed.

Lemma map2_blocks (f : Q -> Q -> Q) (sz k : nat) (d1 d2 : list Q) :
  length d1 = k * sz -> length d2 = k * sz ->
  flat_map (fun i => map2 f (chunk sz i d1) (chunk sz i d2)) (seq 0 k) = map2 f d1 d2.
Proof.
  revert d1 d2. induction k as [|k IH]; intros d1 d2 H1 H2.
  - destruct d1; [reflexivity | discriminate].
  - rewrite flat_map_seq_S, !chunk_0.
    rewrite <- (map2_split f sz d1 d2). f_equal.
    rewrite <- IH.
    + apply flat_map_ext. intros i. rewrite !chunk_S. reflexivity.
    + rewrite length_skipn. simpl in H1. lia.
    + rewrite length_skipn. simpl in H2. lia.
Qed.

Lemma chunk_length (sz k i : nat) (d : list Q) :
  length d = k * sz -> i < k -> length (chunk sz i d) = sz.
Proof.
  intros H Hi. unfold chunk. rewrite length_firstn, length_skipn. nia.
Qed.

Lemma chunk_whole (sz : nat) (d : list Q) : length d = sz -> chunk sz 0 d = d.
Proof. intros H. rewrite chunk_0. subst sz. apply firstn_all. Qed.

Lemma flat_map_ext_in {A B : Type} (g h : A -> list B) (l : list A) :
  (forall a, In a l -> g a = h a) -> flat_map g l = flat_map h l.
Proof.
  intros H. rewrite !flat_map_concat_map. f_equal. apply map_ext_in. exact H.
Qed.

(** ** Broadcasting *)

(** Two tensors of one shape are combined entry by entry. *)
Lemma bdata_same (f : Q -> Q -> Q) (s : list nat) :
  forall d1 d2, length d1 = numel s -> length d2 = numel s ->
  bdata f s s d1 d2 = map2 f d1 d2.
Proof.
  induction s as [|a s IH]; intros d1 d2 H1 H2; simpl in *.
  - destruct d1 as [|x [|? ?]]; try discriminate.
    destruct d2 as [|y [|? ?]]; try discriminate. reflexivity.
  - rewrite Nat.eqb_refl. rewrite <- (map2_blocks f (numel s) a d1 d2) by assumption.
    apply flat_map_ext_in. intros i Hi. apply in_seq in Hi.
    apply IH; apply (chunk_length _ a); solve [assumption | lia].
Qed.

Lemma bshape_same (s : list nat) : bshape s s = Some s.
Proof.
  induction s as [|a s IH]; simpl.
  - reflexivity.
  - rewrite IH. simpl. rewrite Nat.eqb_refl. reflexivity.
Qed.

(** A block of rows combined with one row: the row is used for each. *)
Lemma bdata_rows (f : Q -> Q -> Q) (k : nat) (s : list nat) (d1 d2 : list Q) :
  length d1 = k * numel s -> length d2 = numel s ->
  bdata f (k :: s) (1 :: s) d1 d2 = flat_map (fun r => map2 f r d2) (chunks (numel s) k d1).
Proof.
  intros H1 H2. unfold chunks. rewrite flat_map_concat_map, map_map, <- flat_map_concat_map.
  simpl. destruct (Nat.eqb_spec k 1) as [->|Hk].
  - simpl. rewrite !app_nil_r, (chunk_whole _ d2) by assumption.
    apply bdata_same; [|assumption].
    apply (chunk_length _ 1); solve [assumption | lia].
  - apply flat_map_ext_in. intros i Hi. apply in_seq in Hi.
    apply bdata_same; [|assumption].
    apply (chunk_length _ k); solve [assumption | lia].
Qed.

Lemma bshape_rows (k : nat) (s : list nat) : bshape (k :: s) (1 :: s) = Some (k :: s).
Proof.
  simpl. rewrite bshape_same. simpl.
  destruct (Nat.eqb_spec k 1) as [->|Hk]; reflexivity.
Qed.

(** ** Matrices by rows *)

Lemma mat_rows (t : tensor) (a b : nat) :
  shape t = [a; b] -> wf t -> t = mat b (rows t) /\ uniform b (rows t) /\ length (rows t) = a.
Proof.
  destruct t as [s d]. unfold wf, rows, mat. simpl. intros -> H. simpl in H.
  rewrite Nat.mul_1_r in H. rewrite chunks_length, concat_chunks by exact H.
  repeat split. apply chunks_rows. exact H.
Qed.

Lemma wf_mat (c : nat) (L : list (list Q)) : uniform c L -> wf (mat c L).
Proof.
  intros H. unfold wf, mat. simpl. rewrite (concat_rows_length c) by exact H. lia.
Qed.

Lemma map_nth_all (l : list Q) : map (fun i => nth i l 0%Q) (seq 0 (length l)) = l.
Proof.
  induction l as [|a l IH]; [reflexivity|].
  cbn [length]. rewrite map_seq_S. simpl. f_equal. exact IH.
Qed.

Lemma column1 (l : list Q) : column 1 (length l) 0 l = l.
Proof.
  unfold column. erewrite map_ext; [apply map_nth_all|].
  intros i. simpl. f_equal. lia.
Qed.

(** ** Evaluation of the tensor operations on matrices and vectors *)

Lemma col0_mat (m : nat) (X : list (list Q)) :
  uniform (S m) X -> col0 (mat (S m) X) = Some (vec (map (hd 0%Q) X)).
Proof.
  intros H. unfold col0, mat, vec. cbn [shape data Nat.eqb numel fold_right].
  rewrite Nat.mul_1_r, chunks_concat by exact H. rewrite length_map. do 3 f_equal.
  induction H as [|r X Hr _ IH]; simpl; [reflexivity|].
  destruct r; [discriminate|]. simpl. f_equal. exact IH.
Qed.

Lemma cols_from1_mat (m : nat) (X : list (list Q)) :
  uniform (S m) X -> cols_from1 (mat (S m) X) = Some (mat m (map (@tl Q) X)).
Proof.
  intros H. unfold cols_from1, mat. cbn [shape data numel fold_right].
  rewrite Nat.mul_1_r, chunks_concat by exact H. rewrite length_map.
  replace (S m - 1) with m by lia. do 3 f_equal.
  induction H as [|r X Hr _ IH]; simpl; [reflexivity|].
  destruct r; [discriminate|]. simpl. f_equal. exact IH.
Qed.

Lemma uniform_tl (m : nat) (X : list (list Q)) :
  uniform (S m) X -> uniform m (map (@tl Q) X).
Proof.
  induction 1 as [|r X Hr _ IH]; simpl; constructor; [|exact IH].
  destruct r; [discriminate|]. simpl in *. lia.
Qed.

Lemma unpack_mat (c : nat) (Z : list (list Q)) :
  uniform c Z -> tf_unpack (mat c Z) = Some (map (mkT [c]) Z).
Proof.
  intros H. unfold tf_unpack, mat. cbn [shape data numel fold_right].
  rewrite Nat.mul_1_r, chunks_concat by exact H. reflexivity.
Qed.

Lemma mul_mat_self (c : nat) (Z : list (list Q)) :
  uniform c Z -> t_mul (mat c Z) (mat c Z) = Some (mat c (map (map (fun a => a * a)%Q) Z)).
Proof.
  intros H. unfold t_mul, broadcast, rank, mat. cbn [shape data length].
  unfold pad. cbn [length Nat.max Nat.sub repeat app].
  rewrite bshape_same. cbn [bind]. rewrite length_map. do 2 f_equal.
  rewrite bdata_same, map2_diag.
  - rewrite concat_map. reflexivity.
  - simpl. rewrite (concat_rows_length c) by exact H. lia.
  - simpl. rewrite (concat_rows_length c) by exact H. lia.
Qed.

Lemma uniform_map (c : nat) (g : list Q -> list Q) (L : list (list Q)) :
  (forall r, length r = c -> length (g r) = c) -> uniform c L -> uniform c (map g L).
Proof.
  intros Hg. induction 1; simpl; constructor; auto.
Qed.

Lemma sum_blocks_row (r : list Q) : sum_blocks 1 (length r) r = [qsum r].
Proof.
  unfold sum_blocks. simpl. f_equal. f_equal. apply column1.
Qed.

(** Summing a matrix over its second axis sums each row. *)
Lemma reduce_sum_mat (c : nat) (L : list (list Q)) :
  uniform c L -> tf_reduce_sum (mat c L) 1 = Some (vec (map qsum L)).
Proof.
  intros H. unfold tf_reduce_sum, mat, vec. cbn [shape data reduce_shape bind].
  rewrite length_map. do 2 f_equal.
  cbn [reduce_data numel fold_right]. rewrite Nat.mul_1_r, chunks_concat by exact H.
  induction H as [|r L Hr _ IH]; [reflexivity|].
  cbn [flat_map map]. rewrite IH. subst c. rewrite sum_blocks_row. reflexivity.
Qed.

(** A matrix minus a vector: the vector is subtracted from every row. *)
Lemma broadcast_mat_vec (f : Q -> Q -> Q) (L : list (list Q)) (y : list Q) :
  uniform (length y) L ->
  broadcast f (mat (length y) L) (vec y) = Some (mat (length y) (map (fun r => map2 f r y) L)).
Proof.
  intros H. unfold broadcast, rank, mat, vec. cbn [shape data length].
  unfold pad. cbn [length Nat.max Nat.sub repeat app].
  rewrite bshape_rows. cbn [bind]. rewrite length_map. do 2 f_equal.
  rewrite bdata_rows.
  - cbn [numel fold_right]. rewrite Nat.mul_1_r, chunks_concat by exact H.
    apply flat_map_concat_map.
  - simpl. rewrite (concat_rows_length (length y)) by exact H. lia.
  - simpl. lia.
Qed.

Lemma broadcast_vec_vec (f : Q -> Q -> Q) (u v : list Q) :
  length u = length v -> broadcast f (vec u) (vec v) = Some (vec (map2 f u v)).
Proof.
  intros H. unfold broadcast, rank, vec. cbn [shape data length].
  unfold pad. cbn [length Nat.max Nat.sub repeat app].
  rewrite <- H, bshape_same. cbn [bind].
  rewrite map2_length by exact H. do 2 f_equal.
  apply bdata_same; simpl; lia.
Qed.

(** ** [mapping] *)

(** For an input batch of shape [(k, m)] and a weight vector of length
    [(m+1)*n], [mapping] returns, and its result has the squeezed shape of
    a [k] by [n] matrix. *)
Lemma mapping_shape (self : LinearModel.t) (m n k : nat) (x z : tensor) :
  LinearModel.weight_dim self = [m; n] ->
  shape x = [k; m] -> shape z = [(m + 1) * n] -> wf z ->
  exists h, LinearModel.mapping self x z = Some h /\ shape h = squeezed k n.
Proof.
  intros Hwd Hx Hz Hwf. unfold wf in Hwf. rewrite Hz in Hwf. simpl in Hwf.
  unfold LinearModel.mapping. rewrite Hwd. cbn [nth_error bind].
  unfold slice_to, slice_from. rewrite Hz. cbn [bind].
  unfold tf_reshape. cbn [data numel fold_right].
  rewrite length_firstn, length_skipn.
  replace (m * (n * 1) =? _) with true by (symmetry; apply Nat.eqb_eq; nia).
  replace (1 * (n * 1) =? _) with true by (symmetry; apply Nat.eqb_eq; nia).
  cbn [bind]. unfold tf_matmul. rewrite Hx. cbn [shape]. rewrite Nat.eqb_refl. cbn [bind].
  unfold t_add, broadcast, rank. cbn [shape length]. unfold pad.
  cbn [length Nat.max Nat.sub repeat app]. rewrite bshape_rows. cbn [bind].
  eexists. split; [reflexivity|]. reflexivity.
Qed.

Lemma chunks_singletons (l : list Q) : chunks 1 (length l) l = map (fun a => [a]) l.
Proof.
  induction l as [|a l IH]; [reflexivity|].
  cbn [length]. change (a :: l) with ([a] ++ l) at 1.
  rewrite chunks_app by reflexivity. simpl. f_equal. exact IH.
Qed.

Lemma skipn_last (m : nat) (z : list Q) : length z = S m -> skipn m z = [nth m z 0%Q].
Proof.
  revert z. induction m as [|m IH]; intros z H.
  - destruct z as [|a [|? ?]]; try discriminate. reflexivity.
  - destruct z as [|a z]; [discriminate|]. simpl. apply IH. simpl in H. lia.
Qed.

Lemma flat_map_singleton {A B : Type} (g : A -> B) (l : list A) :
  flat_map (fun a => [g a]) l = map g l.
Proof. induction l; simpl; congruence. Qed.

(** Adding a one by one bias to a column adds it to every entry. *)
Lemma add_bias (l : list Q) (b : Q) :
  bdata Qplus [length l; 1] [1; 1] l [b] = map (fun a => a + b)%Q l.
Proof.
  rewrite bdata_rows by (simpl; lia).
  cbn [numel fold_right]. rewrite Nat.mul_1_r, chunks_singletons.
  rewrite flat_map_concat_map, map_map, <- flat_map_concat_map.
  apply (flat_map_singleton (fun a => a + b)%Q).
Qed.

(** With one output column, [mapping] computes the prediction of every
    row, unless the batch has exactly one row. *)
Lemma mapping_mat (self : LinearModel.t) (m : nat) (X : list (list Q)) (z : list Q) :
  LinearModel.weight_dim self = [m; 1] -> uniform m X -> length z = S m ->
  length X <> 1 ->
  LinearModel.mapping self (mat m X) (mkT [S m] z) = Some (vec (map (predict m z) X)).
Proof.
  intros Hwd HX Hz HN.
  unfold LinearModel.mapping. rewrite Hwd. cbn [nth_error bind].
  unfold slice_to, slice_from. cbn [shape data bind numel fold_right].
  rewrite !Nat.mul_1_r. replace (Nat.min m (S m)) with m by lia.
  unfold tf_reshape. cbn [data numel fold_right].
  rewrite length_firstn, length_skipn, Hz.
  replace (m * (1 * 1) =? _) with true by (symmetry; apply Nat.eqb_eq; lia).
  replace (1 * (1 * 1) =? _) with true by (symmetry; apply Nat.eqb_eq; lia).
  cbn [bind]. unfold tf_matmul, mat. cbn [shape data]. rewrite Nat.eqb_refl. cbn [bind].
  rewrite chunks_concat by exact HX.
  unfold t_add, broadcast, rank. cbn [shape data length]. unfold pad.
  cbn [length Nat.max Nat.sub repeat app]. rewrite bshape_rows. cbn [bind].
  unfold tf_squeeze, vec. cbn [shape data filter].
  rewrite length_map.
  destruct (Nat.eqb_spec (length X) 1) as [E|_]; [contradiction|]. cbn [negb Nat.eqb].
  do 2 f_equal.
  assert (Hcol : column 1 m 0 (firstn m z) = firstn m z).
  { assert (Hl : length (firstn m z) = m) by (rewrite length_firstn; lia).
    rewrite <- Hl at 1. apply column1. }
  cbn [seq map]. rewrite Hcol, (skipn_last m z Hz).
  rewrite (flat_map_singleton (fun row => dot row (firstn m z))).
  rewrite <- (length_map (fun row => dot row (firstn m z)) X).
  rewrite add_bias, map_map. reflexivity.
Qed.

(** ** [log_prob] *)

Lemma t_map_vec (f : Q -> Q) (l : list Q) : t_map f (vec l) = vec (map f l).
Proof. unfold t_map, vec. simpl. rewrite length_map. reflexivity. Qed.

Lemma t_map_mat (f : Q -> Q) (c : nat) (L : list (list Q)) :
  t_map f (mat c L) = mat c (map (map f) L).
Proof. unfold t_map, mat. simpl. rewrite length_map, concat_map. reflexivity. Qed.

Lemma mapM_map {A B : Type} (f : A -> option B) (g : A -> B) (l : list A) :
  (forall a, In a l -> f a = Some (g a)) -> mapM f l = Some (map g l).
Proof.
  induction l as [|a l IH]; intros H; simpl.
  - reflexivity.
  - rewrite (H a) by (left; reflexivity). simpl.
    rewrite IH by (intros b Hb; apply H; right; exact Hb). reflexivity.
Qed.

Lemma list_nat_eqb_refl (s : list nat) : list_nat_eqb s s = true.
Proof. unfold list_nat_eqb. destruct (list_eq_dec Nat.eq_dec s s); congruence. Qed.

(** Stacking vectors of one length gives the matrix with these rows. *)
Lemma pack_vecs (c : nat) (L : list (list Q)) :
  uniform c L -> L <> [] -> tf_pack (map vec L) = Some (mat c L).
Proof.
  intros H Hne. destruct L as [|r L]; [contradiction|].
  unfold tf_pack. cbn [map].
  assert (Hall : forallb (fun u => list_nat_eqb (shape u) (shape (vec r)))
                         (vec r :: map vec L) = true).
  { apply forallb_forall. intros u Hu. change (vec r :: map vec L) with (map vec (r :: L)) in Hu.
    apply in_map_iff in Hu. destruct Hu as [r' [<- Hr']].
    unfold uniform in H. rewrite Forall_forall in H.
    unfold vec. cbn [shape]. rewrite (H r' Hr'), (H r) by (left; reflexivity).
    apply list_nat_eqb_refl. }
  rewrite Hall. unfold mat, vec at 2. cbn [shape].
  inversion H as [|? ? Hr HL]; subst. cbn [length]. rewrite length_map.
  do 2 f_equal. change (vec r :: map vec L) with (map vec (r :: L)).
  rewrite flat_map_concat_map, map_map. cbn [vec data]. rewrite map_id. reflexivity.
Qed.

Lemma log_prior_mat (self : LinearModel.t) (c : nat) (Z : list (list Q)) :
  uniform c Z ->
  LinearModel.log_prior self (mat c Z)
  = Some (vec (map (log_prior_of (LinearModel.prior_variance self)) Z)).
Proof.
  intros H. unfold LinearModel.log_prior.
  rewrite mul_mat_self by exact H. cbn [bind].
  rewrite reduce_sum_mat.
  - cbn [bind]. unfold t_scale. rewrite t_map_vec, !map_map. reflexivity.
  - apply uniform_map; [|exact H]. intros r Hr. rewrite length_map. exact Hr.
Qed.

Lemma log_lik_mat (self : LinearModel.t) (m : nat) (X Z : list (list Q)) :
  LinearModel.weight_dim self = [m; 1] ->
  uniform (S m) X -> length X <> 1 -> uniform (S m) Z -> Z <> [] ->
  LinearModel.log_lik self (mat m (map (@tl Q) X)) (vec (map (hd 0%Q) X)) (mat (S m) Z)
  = Some (vec (map (log_lik_of (LinearModel.lik_variance self) m X) Z)).
Proof.
  intros Hwd HX HN HZ Hne. unfold LinearModel.log_lik.
  rewrite unpack_mat by exact HZ. cbn [bind].
  set (mu := fun z => map (predict m z) (map (@tl Q) X)).
  rewrite (mapM_map _ (fun t => vec (mu (data t)))).
  2:{ intros t Ht. apply in_map_iff in Ht. destruct Ht as [z [<- Hz]].
      unfold uniform in HZ. rewrite Forall_forall in HZ.
      apply mapping_mat; auto using uniform_tl.
      rewrite length_map. exact HN. }
  cbn [bind]. rewrite map_map. cbn [data].
  rewrite <- (map_map mu vec).
  assert (Hmu : uniform (length (map (hd 0%Q) X)) (map mu Z)).
  { apply Forall_forall. intros r Hr. apply in_map_iff in Hr. destruct Hr as [z [<- _]].
    unfold mu. rewrite !length_map. reflexivity. }
  rewrite (pack_vecs _ _ Hmu) by (destruct Z; [contradiction | discriminate]).
  cbn [bind]. unfold t_sub. rewrite broadcast_mat_vec by exact Hmu. cbn [bind].
  unfold tf_pow2. rewrite t_map_mat, reduce_sum_mat.
  - cbn [bind]. unfold t_neg, t_div. rewrite !t_map_vec, !map_map. do 2 f_equal.
    apply map_ext. intros z. unfold log_lik_of, mu.
    rewrite (map_map (@tl Q)), map2_map, map_map. reflexivity.
  - apply Forall_forall. intros r Hr.
    apply in_map_iff in Hr. destruct Hr as [r1 [<- Hr1]].
    apply in_map_iff in Hr1. destruct Hr1 as [r2 [<- Hr2]].
    apply in_map_iff in Hr2. destruct Hr2 as [z [<- _]].
    unfold mu. rewrite length_map, (map_map (@tl Q)), map2_map, !length_map. reflexivity.
Qed.

(** The value of [log_prob] on a dataset with the rows [X] and a minibatch
    with the rows [Z]. *)
Lemma log_prob_mat (self : LinearModel.t) (m : nat) (X Z : list (list Q)) :
  LinearModel.weight_dim self = [m; 1] ->
  uniform (S m) X -> length X <> 1 -> uniform (S m) Z -> Z <> [] ->
  LinearModel.log_prob self (mat (S m) X) (mat (S m) Z)
  = Some (vec (map (joint_of self m X) Z)).
Proof.
  intros Hwd HX HN HZ Hne. unfold LinearModel.log_prob.
  rewrite col0_mat, cols_from1_mat by exact HX. cbn [bind].
  rewrite log_prior_mat by exact HZ. cbn [bind].
  rewrite log_lik_mat by assumption. cbn [bind].
  unfold t_add. rewrite broadcast_vec_vec by (rewrite !length_map; reflexivity).
  rewrite map2_map. reflexivity.
Qed.

Lemma init_fields (wd : list nat) (lik_var prior_var : Q) (self : LinearModel.t) :
  LinearModel.init wd lik_var prior_var = Some self ->
  LinearModel.weight_dim self = wd /\ LinearModel.lik_variance self = lik_var
  /\ LinearModel.prior_variance self = prior_var.
Proof.
  unfold LinearModel.init. destruct (nth_error wd 0); [|discriminate].
  destruct (nth_error wd 1); [|discriminate]. cbn [bind].
  intros [= <-]. repeat split.
Qed.

(** C2: a model constructed with [weight_dim = [m, n]] has
    [num_vars = (m+1)*n]; the constructor does not fail on such a list. *)
Theorem init_num_vars (m n : nat) (lik_var prior_var : Q) :
  exists self, LinearModel.init [m; n] lik_var prior_var = Some self
               /\ LinearModel.num_vars self = (m + 1) * n.
Proof.
  eexists. split; reflexivity.
Qed.

(** When the batch does not have exactly one row, the result of [mapping]
    has shape [(k,)] for one output column and [(k, n)] otherwise. *)
Lemma mapping_shape_batch (self : LinearModel.t) (m n k : nat) (x z : tensor) :
  LinearModel.weight_dim self = [m; n] ->
  shape x = [k; m] -> shape z = [(m + 1) * n] -> wf z -> k <> 1 ->
  exists h, LinearModel.mapping self x z = Some h
            /\ shape h = if n =? 1 then [k] else [k; n].
Proof.
  intros Hwd Hx Hz Hwf Hk.
  destruct (mapping_shape self m n k x z Hwd Hx Hz Hwf) as [h [Hh Hs]].
  exists h. split; [exact Hh|]. rewrite Hs. unfold squeezed. cbn [filter].
  destruct (Nat.eqb_spec k 1) as [E|_]; [contradiction|].
  destruct (n =? 1); reflexivity.
Qed.

(** A batch of exactly one row loses its batch dimension. *)
Lemma mapping_shape_one_row (self : LinearModel.t) (m n : nat) (x z : tensor) :
  LinearModel.weight_dim self = [m; n] ->
  shape x = [1; m] -> shape z = [(m + 1) * n] -> wf z ->
  exists h, LinearModel.mapping self x z = Some h
            /\ shape h = if n =? 1 then [] else [n].
Proof.
  intros Hwd Hx Hz Hwf.
  destruct (mapping_shape self m n 1 x z Hwd Hx Hz Hwf) as [h [Hh Hs]].
  exists h. split; [exact Hh|]. rewrite Hs. unfold squeezed. cbn [filter Nat.eqb negb].
  destruct (n =? 1); reflexivity.
Qed.

(** C3, at a batch of one row: for [weight_dim = [1, 1]] the result of
    [mapping] on an input of shape [(1, 1)] has shape [()], not [(1,)], and
    for [weight_dim = [1, 2]] it has shape [(2,)], not [(1, 2)]. *)
Theorem mapping_one_row_batch :
  (exists self, LinearModel.init [1; 1] (1 # 100) (1 # 100) = Some self
     /\ LinearModel.mapping self (mkT [1; 1] [2]%Q) (mkT [2] [2; 1]%Q)
        = Some (mkT [] [2 * 2 + 1]%Q))
  /\ (exists self, LinearModel.init [1; 2] (1 # 100) (1 # 100) = Some self
     /\ LinearModel.mapping self (mkT [1; 1] [2]%Q) (mkT [4] [1; 2; 3; 4]%Q)
        = Some (mkT [2] [5; 8]%Q)).
Proof.
  split; eexists; (split; [reflexivity|]); vm_compute; reflexivity.
Qed.

(** C1, at a dataset of one row: [mapping] returns a scalar for each weight
    vector, the stacked predictions have one axis only, and the reduction
    over axis 1 raises; the joint density of the claim is defined there. *)
Theorem log_prob_one_row_dataset :
  exists self, LinearModel.init [1; 1] (1 # 100) (1 # 100) = Some self
    /\ LinearModel.log_prob self (mkT [1; 2] [1; 2]%Q) (mkT [1; 2] [1; 0]%Q) = None
    /\ (joint_of self 1 [[1; 2]%Q] [1; 0]%Q == - (10001 # 100))%Q.
Proof.
  eexists. split; [reflexivity|]. split; vm_compute; reflexivity.
Qed.

Lemma mapM_shapes {A : Type} (f : A -> option tensor) (s : list nat) (l : list A) :
  (forall a, In a l -> exists h, f a = Some h /\ shape h = s) ->
  exists hs, mapM f l = Some hs /\ length hs = length l /\ Forall (fun h => shape h = s) hs.
Proof.
  induction l as [|a l IH]; intros H.
  - exists []. repeat split. constructor.
  - destruct (H a (or_introl eq_refl)) as [h [Hh Hs]].
    destruct IH as [hs [Hm [Hl Hf]]]; [intros b Hb; apply H; right; exact Hb|].
    exists (h :: hs). simpl. rewrite Hh, Hm. simpl. repeat split; [congruence|].
    constructor; assumption.
Qed.

Lemma pack_shape (s : list nat) (hs : list tensor) :
  hs <> [] -> Forall (fun h => shape h = s) hs ->
  exists d, tf_pack hs = Some (mkT (length hs :: s) d).
Proof.
  intros Hne Hf. destruct hs as [|h hs]; [contradiction|]. unfold tf_pack.
  assert (Hall : forallb (fun u => list_nat_eqb (shape u) (shape h)) (h :: hs) = true).
  { apply forallb_forall. intros u Hu. rewrite Forall_forall in Hf.
    rewrite (Hf u Hu), (Hf h) by (left; reflexivity). apply list_nat_eqb_refl. }
  rewrite Hall. inversion Hf as [|? ? Hh _]; subst. eexists. reflexivity.
Qed.

(** X7: on a dataset of exactly one row [log_prob] raises, whatever the
    minibatch: the predictions are scalars, their stack has no axis 1. *)
Lemma log_prob_one_row (self : LinearModel.t) (m B : nat) (xs zs : tensor) :
  LinearModel.weight_dim self = [m; 1] ->
  shape xs = [1; S m] -> wf xs -> shape zs = [B; S m] -> wf zs -> 1 <= B ->
  LinearModel.log_prob self xs zs = None.
Proof.
  intros Hwd Hxs Hwx Hzs Hwz HB.
  destruct (mat_rows xs 1 (S m) Hxs Hwx) as [Ex [Ux Lx]].
  destruct (mat_rows zs B (S m) Hzs Hwz) as [Ez [Uz Lz]].
  rewrite Ex, Ez. set (X := rows xs) in *. set (Z := rows zs) in *.
  unfold LinearModel.log_prob.
  rewrite col0_mat, cols_from1_mat by exact Ux. cbn [bind].
  rewrite log_prior_mat by exact Uz. cbn [bind].
  unfold LinearModel.log_lik. rewrite unpack_mat by exact Uz. cbn [bind].
  destruct (mapM_shapes (LinearModel.mapping self (mat m (map (@tl Q) X))) []
                        (map (mkT [S m]) Z)) as [hs [Hm [Hl Hf]]].
  { intros t Ht. apply in_map_iff in Ht. destruct Ht as [z [<- Hz]].
    unfold uniform in Uz. rewrite Forall_forall in Uz.
    apply (mapping_shape self m 1 1); try assumption.
    - unfold mat. cbn [shape]. rewrite length_map, Lx. reflexivity.
    - cbn [shape]. f_equal. lia.
    - unfold wf. cbn [shape data numel fold_right]. rewrite (Uz z Hz). lia. }
  rewrite Hm. cbn [bind]. rewrite length_map, Lz in Hl.
  destruct (pack_shape [] hs) as [d Hd];
    [destruct hs; [simpl in Hl; lia | discriminate] | exact Hf |].
  rewrite Hd, Hl. cbn [bind].
  unfold t_sub, broadcast, rank, vec. cbn [shape data length]. unfold pad.
  cbn [length Nat.max Nat.sub repeat app]. rewrite length_map, Lx.
  assert (Hb : bshape [B] [1] = Some [B]).
  { simpl. destruct (Nat.eqb_spec B 1) as [->|_]; reflexivity. }
  rewrite Hb. reflexivity.
Qed.

(** The value of [log_prob] on arbitrary well-formed tensors: for a dataset
    that does not have exactly one row and a non-empty minibatch, entry by
    entry the log likelihood plus the log prior. *)
Lemma log_prob_value (self : LinearModel.t) (m N B : nat) (xs zs : tensor) :
  LinearModel.weight_dim self = [m; 1] ->
  shape xs = [N; S m] -> wf xs -> N <> 1 ->
  shape zs = [B; S m] -> wf zs -> 1 <= B ->
  LinearModel.log_prob self xs zs = Some (vec (map (joint_of self m (rows xs)) (rows zs))).
Proof.
  intros Hwd Hxs Hwx HN Hzs Hwz HB.
  destruct (mat_rows xs N (S m) Hxs Hwx) as [Ex [Ux Lx]].
  destruct (mat_rows zs B (S m) Hzs Hwz) as [Ez [Uz Lz]].
  rewrite Ex at 1. rewrite Ez at 1.
  apply log_prob_mat; try assumption.
  - rewrite Lx. exact HN.
  - intros E. rewrite E in Lz. simpl in Lz. lia.
Qed.

(** The minibatch away from the one-row datasets: for a dataset [xs] with
    any number of rows but one and [m] input columns, a model with one
    output dimension and every [zs] of shape [(n_minibatch, num_vars)] with
    [n_minibatch >= 1], [log_prob] returns a vector of length exactly
    [n_minibatch] whose [i]-th entry is the unnormalized joint log density
    of the dataset and row [i] of [zs]. *)
Theorem log_prob_minibatch (m N n_minibatch : nat) (lik_var prior_var : Q)
    (self : LinearModel.t) (xs zs : tensor) :
  LinearModel.init [m; 1] lik_var prior_var = Some self ->
  shape xs = [N; m + 1] -> wf xs -> N <> 1 ->
  shape zs = [n_minibatch; LinearModel.num_vars self] -> wf zs -> 1 <= n_minibatch ->
  exists t, LinearModel.log_prob self xs zs = Some t
    /\ shape t = [n_minibatch] /\ length (data t) = n_minibatch
    /\ forall i, i < n_minibatch ->
         nth i (data t) 0%Q = joint_of self m (rows xs) (nth i (rows zs) []).
Proof.
  intros Hinit Hxs Hwx HN Hzs Hwz HB.
  assert (Hnv : LinearModel.num_vars self = S m).
  { unfold LinearModel.init in Hinit. cbn in Hinit. injection Hinit as <-. simpl. lia. }
  destruct (init_fields _ _ _ _ Hinit) as [Hwd _].
  rewrite Hnv in Hzs. replace (m + 1) with (S m) in Hxs by lia.
  assert (Lz : length (rows zs) = n_minibatch)
    by (destruct (mat_rows zs _ _ Hzs Hwz) as [_ [_ L]]; exact L).
  eexists. split; [apply (log_prob_value self m N n_minibatch); assumption|].
  unfold vec. cbn [shape data]. rewrite length_map, Lz. repeat split.
  intros i Hi.
  rewrite (nth_indep _ 0%Q (joint_of self m (rows xs) [])) by (rewrite length_map; lia).
  apply (map_nth (joint_of self m (rows xs))).
Qed.

(** C5, at a dataset of one row: for a minibatch of two weight vectors, of
    shape [(2, num_vars)], [log_prob] raises where the claim has a vector of
    length two holding the two joint densities: the predictions of each
    weight vector have lost their batch axis, and the reduction over axis 1
    has no axis to reduce. *)
Theorem log_prob_minibatch_one_row_dataset :
  exists self, LinearModel.init [1; 1] (1 # 100) (1 # 100) = Some self
    /\ shape (mkT [2; 2] [1; 0; 2; 1]%Q) = [2; LinearModel.num_vars self]
    /\ wf (mkT [2; 2] [1; 0; 2; 1]%Q)
    /\ LinearModel.log_prob self (mkT [1; 2] [1; 2]%Q) (mkT [2; 2] [1; 0; 2; 1]%Q) = None
    /\ (joint_of self 1 [[1; 2]%Q] [1; 0]%Q == - (10001 # 100))%Q
    /\ (joint_of self 1 [[1; 2]%Q] [2; 1]%Q == - (160005 # 100))%Q.
Proof.
  eexists. split; [reflexivity|]. split; [reflexivity|]. split; [reflexivity|].
  split; [vm_compute; reflexivity|]. split; vm_compute; reflexivity.
Qed.

(** ** [np.linspace] *)

Lemma linspace_length (start stop : Q) (num : nat) :
  length (np_linspace start stop num) = num.
Proof. unfold np_linspace. rewrite length_map, length_seq. reflexivity. Qed.

Lemma linspace_nth (start stop : Q) (num i : nat) :
  i < num ->
  nth i (np_linspace start stop num) 0%Q
  = (inject_Z (Z.of_nat i) * spacing start stop num + start)%Q.
Proof.
  intros Hi. unfold np_linspace.
  set (g := fun i : nat => (_ * _ + start)%Q).
  rewrite (nth_indep _ 0%Q (g 0)) by (rewrite length_map, length_seq; exact Hi).
  rewrite (map_nth g), seq_nth by exact Hi. reflexivity.
Qed.

Lemma linspace_first (start stop : Q) (num : nat) :
  1 <= num -> (nth 0 (np_linspace start stop num) 0 == start)%Q.
Proof.
  intros H. rewrite linspace_nth by lia. simpl. ring.
Qed.

Lemma linspace_last (start stop : Q) (num : nat) :
  2 <= num -> (nth (num - 1) (np_linspace start stop num) 0 == stop)%Q.
Proof.
  intros H. rewrite linspace_nth by lia. unfold spacing.
  assert (Hnz : ~ (inject_Z (Z.of_nat (num - 1)) == 0)%Q).
  { intros E. unfold Qeq, inject_Z in E. simpl in E. lia. }
  field. exact Hnz.
Qed.

(** Every value lies between the two ends. *)
Lemma linspace_range (start stop : Q) (num : nat) :
  (start <= stop)%Q ->
  Forall (fun v => start <= v <= stop)%Q (np_linspace start stop num).
Proof.
  intros Hle. unfold np_linspace, spacing. apply Forall_forall. intros v Hv.
  apply in_map_iff in Hv. destruct Hv as [i [<- Hi]]. apply in_seq in Hi.
  destruct (Nat.eq_dec num 1) as [->|Hn].
  - assert (i = 0) by lia. subst i. simpl.
    assert (E : (inject_Z 0 * ((stop - start) / inject_Z 0) + start == start)%Q) by ring.
    rewrite E. split; [apply Qle_refl | exact Hle].
  - set (k := inject_Z (Z.of_nat i)). set (d := inject_Z (Z.of_nat (num - 1))).
    assert (Hk : (0 <= k)%Q) by (unfold k, Qle, inject_Z; simpl; lia).
    assert (Hkd : (k <= d)%Q) by (unfold k, d, Qle, inject_Z; simpl; lia).
    assert (Hd : (0 < d)%Q) by (unfold d, Qlt, inject_Z; simpl; lia).
    assert (E : (k * ((stop - start) / d) + start == (k / d) * (stop - start) + start)%Q).
    { field. intros E. rewrite E in Hd. apply (Qlt_irrefl 0). exact Hd. }
    rewrite E.
    assert (H0 : (0 <= k / d)%Q).
    { apply Qle_shift_div_l; [exact Hd|]. rewrite Qmult_0_l. exact Hk. }
    assert (H1 : (k / d <= 1)%Q).
    { apply Qle_shift_div_r; [exact Hd|]. rewrite Qmult_1_l. exact Hkd. }
    set (c := (k / d)%Q) in *. split; nra.
Qed.

(** ** [build_toy_dataset] *)

Section GeneratorFacts.

Context {rng : Type} (seed_rng : Z -> rng) (standard_normal : rng -> Q * rng).

Lemma draws_length (size : nat) (r : rng) :
  length (fst (draws standard_normal size r)) = size.
Proof.
  revert r. induction size as [|k IH]; intros r; simpl.
  - reflexivity.
  - destruct (standard_normal r) as [v r1]. specialize (IH r1).
    destruct (draws standard_normal k r1) as [vs r2]. simpl in *. congruence.
Qed.

Lemma interleave_columns (a b : list Q) :
  length a = length b ->
  flat_map (fun i => chunk 1 i a ++ chunk 1 i b) (seq 0 (length a))
  = concat (map (fun p => [fst p; snd p]) (combine a b)).
Proof.
  revert b. induction a as [|x a IH]; intros [|y b] H; try discriminate; [reflexivity|].
  cbn [length]. rewrite flat_map_seq_S. cbn [combine map concat fst snd].
  rewrite !chunk_0. cbn [firstn app]. do 2 f_equal.
  rewrite <- IH by (simpl in H; lia).
  apply flat_map_ext. intros i. rewrite !chunk_S. reflexivity.
Qed.

Lemma combine_columns (xs ns : list Q) :
  length xs = length ns ->
  map (fun p => [fst p; snd p])
      (combine (map2 Qplus (map (Qmult (75 # 1000)) xs) ns)
               (map (fun a => a / 4)%Q (map (fun a => a - 4)%Q xs)))
  = map sample_row (combine xs ns).
Proof.
  revert ns. induction xs as [|x xs IH]; intros [|e ns] H; try discriminate; [reflexivity|].
  simpl. f_equal. apply IH. simpl in H. lia.
Qed.

Lemma noise_of_length (n : nat) (noise_std : Q) :
  length (noise_of seed_rng standard_normal n noise_std) = n.
Proof.
  unfold noise_of. destruct (Qeq_bool noise_std 0).
  - rewrite length_map, repeat_length. reflexivity.
  - rewrite length_map. apply draws_length.
Qed.

(** What [norm.rvs(0, noise_std, size=n)] returns right after the seed was
    set to 0, for a standard deviation that is not negative. *)
Lemma norm_rvs_noise (n : nat) (noise_std : Q) (g : global rng) :
  (0 <= noise_std)%Q ->
  fst (norm_rvs standard_normal 0 noise_std n (set_seed seed_rng 0 g))
  = Some (vec (noise_of seed_rng standard_normal n noise_std)).
Proof.
  intros Hs. apply Qle_bool_iff in Hs. unfold norm_rvs, noise_of, set_seed.
  rewrite Hs. cbn [negb np_random].
  destruct (Qeq_bool noise_std 0); [reflexivity|].
  destruct (draws standard_normal n (seed_rng 0)) as [vs r]. reflexivity.
Qed.

(** A negative standard deviation raises, with the seed set and nothing
    drawn. *)
Lemma norm_rvs_negative (n : nat) (noise_std : Q) (g : global rng) :
  (noise_std < 0)%Q ->
  norm_rvs standard_normal 0 noise_std n (set_seed seed_rng 0 g)
  = (None, set_seed seed_rng 0 g).
Proof.
  intros Hs. unfold norm_rvs.
  destruct (Qle_bool 0 noise_std) eqn:E; [|reflexivity].
  apply Qle_bool_iff in E. exfalso. apply (Qlt_not_le _ _ Hs E).
Qed.

(** The table the generator builds for an even number of samples. *)
Lemma build_toy_dataset_value (n : nat) (noise_std : Q) (g : global rng) :
  Nat.even n = true -> (0 <= noise_std)%Q ->
  fst (build_toy_dataset seed_rng standard_normal n noise_std g)
  = Some (mkT [n; 2]
               (concat (map sample_row
                            (combine (inputs_of n)
                                     (noise_of seed_rng standard_normal n noise_std))))).
Proof.
  intros Heven Hs. apply Nat.even_spec in Heven. destruct Heven as [h Hn].
  assert (Hx : length (inputs_of n) = n).
  { unfold inputs_of. rewrite length_app, !linspace_length.
    subst n. rewrite Nat.mul_comm, Nat.div_mul by discriminate. lia. }
  pose proof (noise_of_length n noise_std) as He.
  pose proof (norm_rvs_noise n noise_std g Hs) as Hrvs.
  unfold build_toy_dataset. fold (inputs_of n).
  destruct (norm_rvs standard_normal 0 noise_std n (set_seed seed_rng 0 g)) as [noise g1].
  cbn [fst] in *. rewrite Hrvs. cbn [bind].
  set (ns := noise_of seed_rng standard_normal n noise_std) in *.
  unfold t_scale, t_sub_scalar, t_div. rewrite !t_map_vec.
  unfold t_add. rewrite broadcast_vec_vec by (rewrite length_map; congruence).
  cbn [bind fst]. unfold tf_reshape, vec. cbn [data numel fold_right].
  rewrite map2_length, !length_map by (rewrite length_map; congruence).
  rewrite Hx. replace (n * (1 * 1) =? n) with true by (symmetry; apply Nat.eqb_eq; lia).
  cbn [bind]. unfold np_concatenate1. cbn [shape data]. rewrite Nat.eqb_refl. cbn [bind].
  unfold tf_constant. do 2 f_equal.
  set (ys := map2 _ _ _). set (xs' := map _ (map _ _)).
  assert (Hy : length ys = n).
  { unfold ys. rewrite map2_length, length_map by (rewrite length_map; congruence). exact Hx. }
  assert (Hx' : length xs' = n) by (unfold xs'; rewrite !length_map; exact Hx).
  rewrite <- Hy at 1. rewrite interleave_columns by congruence.
  unfold ys, xs'. rewrite combine_columns by congruence. reflexivity.
Qed.

(** The state the call leaves behind is the one [norm.rvs] leaves after
    the seed was set to 0, whether the call raises or not. *)
Lemma build_toy_dataset_state (n : nat) (noise_std : Q) (g : global rng) :
  snd (build_toy_dataset seed_rng standard_normal n noise_std g)
  = snd (norm_rvs standard_normal 0 noise_std n (set_seed seed_rng 0 g)).
Proof.
  unfold build_toy_dataset.
  destruct (norm_rvs standard_normal 0 noise_std n (set_seed seed_rng 0 g)) as [noise g1].
  reflexivity.
Qed.

Lemma norm_rvs_tf_seed (loc scale : Q) (n : nat) (g : global rng) :
  tf_seed (snd (norm_rvs standard_normal loc scale n g)) = tf_seed g.
Proof.
  unfold norm_rvs. destruct (negb (Qle_bool 0 scale)); [reflexivity|].
  destruct (Qeq_bool scale 0); [reflexivity|].
  destruct (draws standard_normal n (np_random g)). reflexivity.
Qed.

Lemma build_toy_dataset_seedless (n : nat) (noise_std : Q) (g1 g2 : global rng) :
  build_toy_dataset seed_rng standard_normal n noise_std g1
  = build_toy_dataset seed_rng standard_normal n noise_std g2.
Proof. reflexivity. Qed.

End GeneratorFacts.

Lemma build_toy_dataset_rows {rng : Type} (seed_rng : Z -> rng)
    (standard_normal : rng -> Q * rng) (n : nat) (noise_std : Q) (g : global rng) :
  Nat.even n = true -> (0 <= noise_std)%Q ->
  exists table,
    fst (build_toy_dataset seed_rng standard_normal n noise_std g) = Some table
    /\ shape table = [n; 2] /\ wf table
    /\ rows table
       = map sample_row (combine (inputs_of n) (noise_of seed_rng standard_normal n noise_std))
    /\ length (np_linspace 0 2 (n / 2)) = n / 2
    /\ length (inputs_of n) = n
    /\ length (noise_of seed_rng standard_normal n noise_std) = n.
Proof.
  intros Heven Hs.
  assert (Hn : n / 2 + n / 2 = n).
  { apply Nat.even_spec in Heven. destruct Heven as [h ->].
    rewrite Nat.mul_comm, Nat.div_mul by discriminate. lia. }
  pose proof (noise_of_length seed_rng standard_normal n noise_std) as He.
  assert (Hx : length (inputs_of n) = n).
  { unfold inputs_of. rewrite length_app, !linspace_length. exact Hn. }
  set (L := map sample_row
                (combine (inputs_of n) (noise_of seed_rng standard_normal n noise_std))).
  assert (HL : length L = n).
  { unfold L. rewrite length_map, length_combine, Hx, He. apply Nat.min_id. }
  assert (HU : uniform 2 L).
  { unfold L. apply Forall_forall. intros r Hr. apply in_map_iff in Hr.
    destruct Hr as [p [<- _]]. reflexivity. }
  exists (mkT [n; 2] (concat L)).
  split; [apply build_toy_dataset_value; assumption|].
  split; [reflexivity|].
  split; [unfold wf; cbn [shape data numel fold_right];
          rewrite (concat_rows_length 2) by exact HU; lia|].
  split; [unfold rows; cbn [shape data]; rewrite <- HL; apply chunks_concat; exact HU|].
  split; [apply linspace_length|]. split; assumption.
Qed.

Lemma generated_row {rng : Type} (seed_rng : Z -> rng)
    (standard_normal : rng -> Q * rng) (n : nat) (noise_std : Q) (i : nat) :
  length (inputs_of n) = n ->
  length (noise_of seed_rng standard_normal n noise_std) = n -> i < n ->
  nth i (map sample_row (combine (inputs_of n)
                                 (noise_of seed_rng standard_normal n noise_std))) []
  = sample_row (nth i (inputs_of n) 0%Q,
                nth i (noise_of seed_rng standard_normal n noise_std) 0%Q).
Proof.
  intros Hx He Hi.
  rewrite (nth_indep _ [] (sample_row (0%Q, 0%Q)))
    by (rewrite length_map, length_combine, Hx, He, Nat.min_id; exact Hi).
  rewrite (map_nth sample_row), combine_nth by congruence. reflexivity.
Qed.

(** The values of [np.linspace], without the division: value [i], less the
    start, times [num - 1] is [i] times the length of the interval. *)
Lemma linspace_scaled (start stop : Q) (num i : nat) :
  i < num ->
  ((nth i (np_linspace start stop num) 0 - start) * inject_Z (Z.of_nat (num - 1))
   == (stop - start) * inject_Z (Z.of_nat i))%Q.
Proof.
  intros Hi. rewrite linspace_nth by exact Hi. unfold spacing.
  destruct (Nat.eq_dec (num - 1) 0) as [E|E].
  - assert (i = 0) by lia. subst i. rewrite E. simpl. ring.
  - field. intros H. unfold Qeq, inject_Z in H. simpl in H. lia.
Qed.

(** C4: for an even sample count [n] and a noise standard deviation that is
    not negative, the generator returns a table of exactly [n] rows and two
    columns. Row [i] holds the output [0.075 * x_i + e_i], computed from the
    input before rescaling, and the rescaled input [(x_i - 4) / 4]. The
    inputs [x] are [n/2] values evenly spaced from 0 to 2 (value [i] is
    [2 i / (n/2 - 1)]) followed by [n/2] values evenly spaced from 6 to 8;
    the noise [e] is [n] standard normal draws from the generator seeded
    with 0, each times the standard deviation. *)
Theorem build_toy_dataset_table {rng : Type} (seed_rng : Z -> rng)
    (standard_normal : rng -> Q * rng) (n : nat) (noise_std : Q) (g : global rng) :
  Nat.even n = true -> (0 <= noise_std)%Q ->
  exists (table : tensor) (xs es : list Q),
    fst (build_toy_dataset seed_rng standard_normal n noise_std g) = Some table
    /\ shape table = [n; 2] /\ length (rows table) = n
    /\ length xs = n /\ length es = n
    /\ (forall i, i < n ->
          nth i (rows table) []
          = [((75 # 1000) * nth i xs 0 + nth i es 0)%Q; ((nth i xs 0 - 4) / 4)%Q])
    /\ (forall i, i < n / 2 ->
          (nth i xs 0 * inject_Z (Z.of_nat (n / 2 - 1)) == 2 * inject_Z (Z.of_nat i))%Q
          /\ ((nth (n / 2 + i) xs 0 - 6) * inject_Z (Z.of_nat (n / 2 - 1))
              == 2 * inject_Z (Z.of_nat i))%Q
          /\ (0 <= nth i xs 0 <= 2)%Q /\ (6 <= nth (n / 2 + i) xs 0 <= 8)%Q)
    /\ (1 <= n / 2 -> (nth 0 xs 0 == 0)%Q /\ (nth (n / 2) xs 0 == 6)%Q)
    /\ (2 <= n / 2 -> (nth (n / 2 - 1) xs 0 == 2)%Q /\ (nth (n - 1) xs 0 == 8)%Q)
    /\ ((0 < noise_std)%Q ->
        es = map (fun v => (v * noise_std + 0)%Q)
                 (fst (draws standard_normal n (seed_rng 0%Z))))
    /\ ((noise_std == 0)%Q -> Forall (fun e => (e == 0)%Q) es).
Proof.
  intros Heven Hs.
  destruct (build_toy_dataset_rows seed_rng standard_normal n noise_std g Heven Hs)
    as [table [Ht [Hsh [_ [Hr [Hl [Hx He]]]]]]].
  assert (Hn : n / 2 + n / 2 = n).
  { apply Nat.even_spec in Heven. destruct Heven as [h ->].
    rewrite Nat.mul_comm, Nat.div_mul by discriminate. lia. }
  set (h := n / 2) in *.
  exists table, (inputs_of n), (noise_of seed_rng standard_normal n noise_std).
  split; [exact Ht|]. split; [exact Hsh|].
  split; [rewrite Hr, length_map, length_combine, Hx, He; apply Nat.min_id|].
  split; [exact Hx|]. split; [exact He|].
  split; [intros i Hi; rewrite Hr, generated_row by assumption; reflexivity|].
  unfold inputs_of. fold h.
  assert (A1 : forall i, i < h ->
                 nth i (np_linspace 0 2 h ++ np_linspace 6 8 h) 0%Q
                 = nth i (np_linspace 0 2 h) 0%Q).
  { intros i Hi. apply app_nth1. rewrite linspace_length. exact Hi. }
  assert (A2 : forall i, i < h ->
                 nth (h + i) (np_linspace 0 2 h ++ np_linspace 6 8 h) 0%Q
                 = nth i (np_linspace 6 8 h) 0%Q).
  { intros i Hi. rewrite app_nth2 by (rewrite linspace_length; lia).
    rewrite linspace_length. f_equal. lia. }
  pose proof (linspace_range 0 2 h) as R1. pose proof (linspace_range 6 8 h) as R2.
  rewrite Forall_forall in R1, R2.
  split.
  { intros i Hi. rewrite A1, A2 by exact Hi.
    pose proof (linspace_scaled 0 2 h i Hi) as S1.
    pose proof (linspace_scaled 6 8 h i Hi) as S2.
    split; [rewrite <- S1; ring|]. split; [rewrite S2; ring|].
    split; [apply R1; [discriminate|]; apply nth_In; rewrite linspace_length; exact Hi|].
    apply R2; [discriminate|]. apply nth_In. rewrite linspace_length. exact Hi. }
  split.
  { intros H1. split.
    - rewrite A1 by lia. apply linspace_first. exact H1.
    - pose proof (A2 0) as A20. rewrite Nat.add_0_r in A20. rewrite A20 by lia.
      apply linspace_first. exact H1. }
  split.
  { intros H2. split.
    - rewrite A1 by lia. apply linspace_last. exact H2.
    - replace (n - 1) with (h + (h - 1)) by lia. rewrite A2 by lia.
      apply linspace_last. exact H2. }
  split.
  - intros Hpos. unfold noise_of.
    destruct (Qeq_bool noise_std 0) eqn:E; [|reflexivity].
    apply Qeq_bool_iff in E. rewrite E in Hpos. exfalso. apply (Qlt_irrefl 0). exact Hpos.
  - intros Hz. unfold noise_of. apply Qeq_bool_iff in Hz. rewrite Hz.
    apply Forall_forall. intros e He'. apply in_map_iff in He'.
    destruct He' as [one [<- _]]. ring.
Qed.

Lemma build_toy_dataset_table_witness :
  exists (table : tensor) (xs es : list Q),
    fst (build_toy_dataset lcg_seed lcg_normal 4 (1 # 10) state17) = Some table
    /\ shape table = [4; 2] /\ length (rows table) = 4
    /\ length xs = 4 /\ length es = 4
    /\ (forall i, i < 4 ->
          nth i (rows table) []
          = [((75 # 1000) * nth i xs 0 + nth i es 0)%Q; ((nth i xs 0 - 4) / 4)%Q])
    /\ (forall i, i < 4 / 2 ->
          (nth i xs 0 * inject_Z (Z.of_nat (4 / 2 - 1)) == 2 * inject_Z (Z.of_nat i))%Q
          /\ ((nth (4 / 2 + i) xs 0 - 6) * inject_Z (Z.of_nat (4 / 2 - 1))
              == 2 * inject_Z (Z.of_nat i))%Q
          /\ (0 <= nth i xs 0 <= 2)%Q /\ (6 <= nth (4 / 2 + i) xs 0 <= 8)%Q)
    /\ (1 <= 4 / 2 -> (nth 0 xs 0 == 0)%Q /\ (nth (4 / 2) xs 0 == 6)%Q)
    /\ (2 <= 4 / 2 -> (nth (4 / 2 - 1) xs 0 == 2)%Q /\ (nth (4 - 1) xs 0 == 8)%Q)
    /\ ((0 < 1 # 10)%Q ->
        es = map (fun v => (v * (1 # 10) + 0)%Q) (fst (draws lcg_normal 4 (lcg_seed 0%Z))))
    /\ (((1 # 10) == 0)%Q -> Forall (fun e => (e == 0)%Q) es).
Proof.
  apply (build_toy_dataset_table lcg_seed lcg_normal 4 (1 # 10) state17).
  - reflexivity.
  - discriminate.
Defined.

(** X17: every table the generator builds is a dataset [log_prob] accepts: an
    even number of rows is never one. *)
Lemma log_prob_generated_dataset {rng : Type} (seed_rng : Z -> rng)
    (standard_normal : rng -> Q * rng) (n : nat) (noise_std : Q) (g : global rng)
    (B : nat) (zs : tensor) :
  Nat.even n = true -> (0 <= noise_std)%Q -> shape zs = [B; 2] -> wf zs -> 1 <= B ->
  exists table,
    fst (build_toy_dataset seed_rng standard_normal n noise_std g) = Some table
    /\ LinearModel.log_prob model11 table zs
       = Some (vec (map (joint_of model11 1 (rows table)) (rows zs))).
Proof.
  intros Heven Hs Hzs Hwz HB.
  destruct (build_toy_dataset_rows seed_rng standard_normal n noise_std g Heven Hs)
    as [table [Ht [Hsh [Hw _]]]].
  exists table. split; [exact Ht|].
  apply (log_prob_value model11 1 n B); try assumption; try reflexivity.
  intros ->. discriminate.
Qed.

(** C9: [build_toy_dataset] resets the global seed to 0 before it draws the
    noise: the dataset and the state it leaves behind do not depend on the
    state, hence on any seed, the caller had set, and after the call the
    global seed is the one derived from 0. *)
Theorem build_toy_dataset_resets_seed {rng : Type} (seed_rng : Z -> rng)
    (standard_normal : rng -> Q * rng) (n : nat) (noise_std : Q) :
  (forall g1 g2 : global rng,
     build_toy_dataset seed_rng standard_normal n noise_std g1
     = build_toy_dataset seed_rng standard_normal n noise_std g2)
  /\ (forall (s1 s2 : Z) (g : global rng),
        fst (build_toy_dataset seed_rng standard_normal n noise_std (set_seed seed_rng s1 g))
        = fst (build_toy_dataset seed_rng standard_normal n noise_std (set_seed seed_rng s2 g)))
  /\ (forall (s : Z) (g : global rng),
        snd (build_toy_dataset seed_rng standard_normal n noise_std (set_seed seed_rng s g))
        = snd (norm_rvs standard_normal 0 noise_std n (set_seed seed_rng 0%Z g)))
  /\ (forall (s : Z) (g : global rng),
        tf_seed (snd (build_toy_dataset seed_rng standard_normal n noise_std
                                        (set_seed seed_rng s g))) = Some 0%Z).
Proof.
  split; [intros g1 g2; apply build_toy_dataset_seedless|].
  split; [intros s1 s2 g; f_equal; apply build_toy_dataset_seedless|].
  split; intros s g; rewrite build_toy_dataset_state.
  - reflexivity.
  - apply norm_rvs_tf_seed.
Qed.

(** ** The definitions at concrete inputs *)

Example init_default :
  LinearModel.init [1; 1] LinearModel.default_variance LinearModel.default_variance
  = Some model11.
Proof. reflexivity. Qed.

Example mapping_three_rows :
  LinearModel.mapping model11 (mkT [3; 1] [2; 4; 6]%Q) (mkT [2] [2; 1]%Q)
  = Some (mkT [3] [2 * 2 + 1; 4 * 2 + 1; 6 * 2 + 1]%Q).
Proof. vm_compute. reflexivity. Qed.

Example log_prob_three_rows :
  option_map (fun t => (shape t, map Qred (data t))) (LinearModel.log_prob model11 data3 batch2)
  = Some ([2], [- (30001 # 100); - (232001 # 20)]%Q).
Proof. vm_compute. reflexivity. Qed.

Example log_prob_no_rows :
  option_map (fun t => (shape t, map Qred (data t)))
             (LinearModel.log_prob model11 (mkT [0; 2] []) batch2)
  = Some ([2], [- (1 # 100); - (1 # 20)]%Q).
Proof. vm_compute. reflexivity. Qed.

Example build_toy_dataset_odd :
  fst (build_toy_dataset lcg_seed lcg_normal 3 (1 # 10) (mkGlobal 17%Z None)) = None.
Proof. vm_compute. reflexivity. Qed.

Example build_toy_dataset_negative_noise :
  build_toy_dataset lcg_seed lcg_normal 4 (- (1 # 10)) state17
  = (None, mkGlobal 0%Z (Some 0%Z)).
Proof. vm_compute. reflexivity. Qed.

Example build_toy_dataset_no_noise :
  build_toy_dataset lcg_seed lcg_normal 4 0 state17
  = (Some (mkT [4; 2] [0 # 1000; -4 # 4; 150 # 1000; -2 # 4;
                       450 # 1000; 2 # 4; 600 # 1000; 4 # 4]%Q),
     mkGlobal 0%Z (Some 0%Z)).
Proof. vm_compute. reflexivity. Qed.

Example build_toy_dataset_overwrites_seed :
  snd (build_toy_dataset lcg_seed lcg_normal 4 (1 # 10) (set_seed lcg_seed 42 (mkGlobal 17%Z None)))
  = mkGlobal 64%Z (Some 0%Z).
Proof. vm_compute. reflexivity. Qed.


Lemma log_prob_minibatch_witness :
  exists t, LinearModel.log_prob model11 data3 batch2 = Some t
    /\ shape t = [2] /\ length (data t) = 2
    /\ forall i, i < 2 ->
         nth i (data t) 0%Q = joint_of model11 1 (rows data3) (nth i (rows batch2) []).
Proof.
  apply (log_prob_minibatch 1 3 2 (1 # 100) (1 # 100) model11 data3 batch2).
  - reflexivity.
  - reflexivity.
  - reflexivity.
  - discriminate.
  - reflexivity.
  - reflexivity.
  - repeat constructor.
Defined.

(** * Further properties of the script *)

(** ** [mapping]: value and errors *)

Lemma flat_map_length_uniform {A : Type} (n : nat) (g : A -> list Q) (L : list A) :
  (forall a, length (g a) = n) -> length (flat_map g L) = length L * n.
Proof.
  intros H. induction L as [|a L IH]; simpl; [reflexivity|].
  rewrite length_app, H, IH. reflexivity.
Qed.

Lemma map2_seq (h : Q -> Q -> Q) (f : nat -> Q) (b : list Q) :
  map2 h (map f (seq 0 (length b))) b
  = map (fun j => h (f j) (nth j b 0%Q)) (seq 0 (length b)).
Proof.
  transitivity (map2 h (map f (seq 0 (length b)))
                     (map (fun j => nth j b 0%Q) (seq 0 (length b)))).
  - f_equal. symmetry. apply map_nth_all.
  - apply map2_map.
Qed.

Lemma column_firstn (n m j : nat) (z : list Q) :
  j < n -> column n m j (firstn (m * n) z) = column n m j z.
Proof.
  intros Hj. unfold column. apply map_ext_in. intros i Hi. apply in_seq in Hi.
  rewrite nth_firstn.
  destruct (Nat.ltb_spec (i * n + j) (m * n)) as [_|H]; [reflexivity | nia].
Qed.

(** X1: [mapping] computes [x.W + b]: for an input of shape [(k, m)] and a
    weight vector of length [(m+1)*n], the result holds, row by row, the
    [n] affine combinations of each input row, in the squeezed shape. *)
Theorem mapping_affine (self : LinearModel.t) (m n k : nat) (x z : tensor) :
  LinearModel.weight_dim self = [m; n] ->
  shape x = [k; m] -> wf x -> shape z = [(m + 1) * n] -> wf z ->
  LinearModel.mapping self x z
  = Some (mkT (squeezed k n)
              (flat_map (fun row => map (affine m n (data z) row) (seq 0 n)) (rows x))).
Proof.
  intros Hwd Hx Hwx Hz Hwz.
  destruct (mat_rows x k m Hx Hwx) as [_ [Ux Lx]].
  unfold wf in Hwz. rewrite Hz in Hwz. simpl in Hwz.
  unfold LinearModel.mapping. rewrite Hwd. cbn [nth_error bind].
  unfold slice_to, slice_from. rewrite Hz. cbn [bind].
  unfold tf_reshape. cbn [data numel fold_right].
  rewrite length_firstn, length_skipn.
  replace (m * (n * 1) =? _) with true by (symmetry; apply Nat.eqb_eq; nia).
  replace (1 * (n * 1) =? _) with true by (symmetry; apply Nat.eqb_eq; nia).
  cbn [bind]. unfold tf_matmul. rewrite Hx. cbn [shape data]. rewrite Nat.eqb_refl.
  cbn [bind]. unfold t_add, broadcast, rank. cbn [shape data length]. unfold pad.
  cbn [length Nat.max Nat.sub repeat app]. rewrite bshape_rows. cbn [bind].
  unfold tf_squeeze, squeezed. cbn [shape data]. do 2 f_equal.
  replace (Nat.min (m * n) ((m + 1) * n) * 1) with (m * n) by nia.
  unfold rows in *. rewrite Hx in *. set (X := chunks m k (data x)) in *.
  set (W := firstn (m * n) (data z)). set (b := skipn (m * n) (data z)).
  assert (Hb : length b = n) by (unfold b; rewrite length_skipn; nia).
  set (g := fun row => map (fun j => dot row (column n m j W)) (seq 0 n)).
  assert (Ug : uniform n (map g X)).
  { apply Forall_forall. intros r Hr. apply in_map_iff in Hr. destruct Hr as [r' [<- _]].
    unfold g. rewrite length_map, length_seq. reflexivity. }
  rewrite bdata_rows.
  - cbn [numel fold_right]. rewrite Nat.mul_1_r.
    rewrite (flat_map_concat_map g X). rewrite <- Lx, <- (length_map g X).
    rewrite chunks_concat by exact Ug.
    rewrite flat_map_concat_map, map_map, <- flat_map_concat_map.
    apply flat_map_ext. intros row. unfold g. rewrite <- Hb at 1. rewrite map2_seq, Hb.
    apply map_ext_in. intros j Hj. apply in_seq in Hj. unfold affine.
    unfold W, b. rewrite column_firstn by lia. rewrite nth_skipn. reflexivity.
  - cbn [numel fold_right]. rewrite (flat_map_length_uniform n).
    + rewrite Lx. lia.
    + intros a. unfold g. rewrite length_map, length_seq. reflexivity.
  - cbn [numel fold_right]. lia.
Qed.

Lemma reshape_shape (t u : tensor) (s : list nat) :
  tf_reshape t s = Some u -> shape u = s.
Proof.
  unfold tf_reshape. destruct (numel s =? length (data t)); [|discriminate].
  intros [= <-]. reflexivity.
Qed.

Lemma mapping_wrong_length (self : LinearModel.t) (m n d : nat) (x z : tensor) :
  LinearModel.weight_dim self = [m; n] ->
  shape z = [d] -> wf z -> d <> (m + 1) * n ->
  LinearModel.mapping self x z = None.
Proof.
  intros Hwd Hz Hwz Hd. unfold wf in Hwz. rewrite Hz in Hwz. simpl in Hwz.
  unfold LinearModel.mapping. rewrite Hwd. cbn [nth_error bind].
  unfold slice_to, slice_from. rewrite Hz. cbn [bind].
  unfold tf_reshape at 1. cbn [data numel fold_right]. rewrite length_firstn.
  destruct (Nat.eqb_spec (m * (n * 1)) (Nat.min (Nat.min (m * n) d * 1) (length (data z))))
    as [E|E]; [|reflexivity].
  cbn [bind]. unfold tf_reshape at 1. cbn [data numel fold_right]. rewrite length_skipn.
  destruct (Nat.eqb_spec (1 * (n * 1)) (length (data z) - Nat.min (m * n) d * 1))
    as [E'|E']; [|reflexivity].
  exfalso. nia.
Qed.

(** X2: a model accepts a weight vector exactly when it has [num_vars]
    entries: [mapping] raises on every other length. *)
Theorem mapping_accepts_num_vars (m n : nat) (lik_var prior_var : Q)
    (self : LinearModel.t) (k d : nat) (x z : tensor) :
  LinearModel.init [m; n] lik_var prior_var = Some self ->
  shape x = [k; m] -> shape z = [d] -> wf z ->
  (LinearModel.mapping self x z <> None <-> d = LinearModel.num_vars self).
Proof.
  intros Hinit Hx Hz Hwz.
  destruct (init_fields _ _ _ _ Hinit) as [Hwd _].
  assert (Hnv : LinearModel.num_vars self = (m + 1) * n).
  { unfold LinearModel.init in Hinit. cbn in Hinit. injection Hinit as <-. reflexivity. }
  rewrite Hnv. split.
  - intros Hsome. destruct (Nat.eq_dec d ((m + 1) * n)) as [E|E]; [exact E|].
    exfalso. apply Hsome. apply (mapping_wrong_length self m n d); assumption.
  - intros ->. destruct (mapping_shape self m n k x z Hwd Hx Hz Hwz) as [h [Hh _]].
    rewrite Hh. discriminate.
Qed.

Lemma mapping_needs_columns (self : LinearModel.t) (m n : nat) (x z : tensor) :
  LinearModel.weight_dim self = [m; n] ->
  (forall k, shape x <> [k; m]) ->
  LinearModel.mapping self x z = None.
Proof.
  intros Hwd Hx. unfold LinearModel.mapping. rewrite Hwd. cbn [nth_error bind].
  destruct (slice_to z (m * n)) as [zW|]; [|reflexivity]. cbn [bind].
  destruct (tf_reshape zW [m; n]) as [W|] eqn:EW; [|reflexivity]. cbn [bind].
  destruct (slice_from z (m * n)) as [zb|]; [|reflexivity]. cbn [bind].
  destruct (tf_reshape zb [1; n]) as [b|]; [|reflexivity]. cbn [bind].
  apply reshape_shape in EW. unfold tf_matmul. rewrite EW.
  destruct (shape x) as [|p [|q [|? ?]]]; try reflexivity.
  destruct (Nat.eqb_spec q m) as [->|_]; [|reflexivity].
  exfalso. apply (Hx p). reflexivity.
Qed.

(** X3: [mapping] raises on every input that is not a matrix with as many
    columns as the model has input dimensions, whatever the weight
    vector. *)
Theorem mapping_wrong_input (self : LinearModel.t) (m n : nat) (x z : tensor) :
  LinearModel.weight_dim self = [m; n] ->
  (forall k, shape x <> [k; m]) ->
  LinearModel.mapping self x z = None.
Proof.
  intros Hwd Hx. destruct (LinearModel.mapping self x z) as [h|] eqn:E; [|reflexivity].
  rewrite (mapping_needs_columns self m n x z Hwd Hx) in E. discriminate.
Qed.

(** ** [log_prob]: errors *)

(** X4: [log_prob] raises on a minibatch without any weight vector: there is
    nothing to stack. *)
Theorem log_prob_empty_minibatch (self : LinearModel.t) (V : nat) (xs zs : tensor) :
  shape zs = [0; V] -> LinearModel.log_prob self xs zs = None.
Proof.
  intros Hzs. unfold LinearModel.log_prob.
  destruct (col0 xs); [|reflexivity]. cbn [bind].
  destruct (cols_from1 xs); [|reflexivity]. cbn [bind].
  destruct (LinearModel.log_prior self zs); [|reflexivity]. cbn [bind].
  unfold LinearModel.log_lik, tf_unpack. rewrite Hzs. reflexivity.
Qed.

Lemma mapM_head_fails {A B : Type} (f : A -> option B) (a : A) (l : list A) :
  f a = None -> mapM f (a :: l) = None.
Proof. intros H. simpl. rewrite H. reflexivity. Qed.

(** X5: [log_prob] raises when the weight vectors of the minibatch do not have
    [(m+1)*n] entries, the [num_vars] of the model. *)
Theorem log_prob_wrong_width (self : LinearModel.t) (m n B V : nat) (xs zs : tensor) :
  LinearModel.weight_dim self = [m; n] ->
  shape zs = [B; V] -> wf zs -> 1 <= B -> V <> (m + 1) * n ->
  LinearModel.log_prob self xs zs = None.
Proof.
  intros Hwd Hzs Hwz HB HV.
  destruct (mat_rows zs B V Hzs Hwz) as [Ez [Uz Lz]].
  unfold LinearModel.log_prob.
  destruct (col0 xs); [|reflexivity]. cbn [bind].
  destruct (cols_from1 xs) as [x|]; [|reflexivity]. cbn [bind].
  destruct (LinearModel.log_prior self zs); [|reflexivity]. cbn [bind].
  unfold LinearModel.log_lik. rewrite Ez, unpack_mat by exact Uz. cbn [bind].
  destruct (rows zs) as [|z Z]; [simpl in Lz; lia|].
  cbn [map]. rewrite mapM_head_fails; [reflexivity|].
  apply (mapping_wrong_length self m n V); try assumption; try reflexivity.
  inversion Uz; subst. unfold wf. cbn [shape data numel fold_right]. lia.
Qed.

(** X6: with two or more output columns [log_prob] raises on every dataset
    whose number of rows is neither one nor the number of output columns:
    the stacked predictions of shape [(n_minibatch, n_data, n)] do not
    broadcast against the outputs of shape [(n_data,)]. *)
Theorem log_prob_many_outputs (self : LinearModel.t) (m n N B : nat) (xs zs : tensor) :
  LinearModel.weight_dim self = [m; n] -> 2 <= n ->
  shape xs = [N; S m] -> wf xs -> N <> 1 -> N <> n ->
  shape zs = [B; (m + 1) * n] -> wf zs -> 1 <= B ->
  LinearModel.log_prob self xs zs = None.
Proof.
  intros Hwd Hn Hxs Hwx HN1 HNn Hzs Hwz HB.
  destruct (mat_rows xs N (S m) Hxs Hwx) as [Ex [Ux Lx]].
  destruct (mat_rows zs B _ Hzs Hwz) as [Ez [Uz Lz]].
  rewrite Ex, Ez. set (X := rows xs) in *. set (Z := rows zs) in *.
  unfold LinearModel.log_prob.
  rewrite col0_mat, cols_from1_mat by exact Ux. cbn [bind].
  rewrite log_prior_mat by exact Uz. cbn [bind].
  unfold LinearModel.log_lik. rewrite unpack_mat by exact Uz. cbn [bind].
  destruct (mapM_shapes (LinearModel.mapping self (mat m (map (@tl Q) X))) [N; n]
                        (map (mkT [(m + 1) * n]) Z)) as [hs [Hm [Hl Hf]]].
  { intros t Ht. apply in_map_iff in Ht. destruct Ht as [z [<- Hz]].
    unfold uniform in Uz. rewrite Forall_forall in Uz.
    destruct (mapping_shape self m n N (mat m (map (@tl Q) X)) (mkT [(m + 1) * n] z))
      as [h [Hh Hs]]; try assumption.
    - unfold mat. cbn [shape]. rewrite length_map, Lx. reflexivity.
    - reflexivity.
    - unfold wf. cbn [shape data numel fold_right]. rewrite (Uz z Hz). lia.
    - exists h. split; [exact Hh|]. rewrite Hs. unfold squeezed. cbn [filter].
      destruct (Nat.eqb_spec N 1) as [E|_]; [contradiction|].
      destruct (Nat.eqb_spec n 1) as [E|_]; [lia|]. reflexivity. }
  rewrite Hm. cbn [bind]. rewrite length_map, Lz in Hl.
  destruct (pack_shape [N; n] hs) as [d Hd];
    [destruct hs; [simpl in Hl; lia | discriminate] | exact Hf |].
  rewrite Hd, Hl. cbn [bind].
  unfold t_sub, broadcast, rank, vec. cbn [shape data length]. unfold pad.
  cbn [length Nat.max Nat.sub repeat app]. rewrite length_map, Lx.
  assert (Hb : bshape [B; N; n] [1; 1; N] = None).
  { cbn [bshape bind].
    destruct (Nat.eqb_spec n N) as [E|_]; [congruence|].
    destruct (Nat.eqb_spec n 1) as [E|_]; [lia|].
    destruct (Nat.eqb_spec N 1) as [E|_]; [contradiction|]. reflexivity. }
  rewrite Hb. reflexivity.
Qed.

(** ** Sums of rationals *)

Lemma fold_left_Qplus_acc (l : list Q) (a : Q) : (fold_left Qplus l a == a + qsum l)%Q.
Proof.
  unfold qsum. revert a. induction l as [|x l IH]; intros a; simpl.
  - ring.
  - rewrite (IH (a + x)%Q), (IH (0 + x)%Q). ring.
Qed.

Lemma qsum_cons (x : Q) (l : list Q) : (qsum (x :: l) == x + qsum l)%Q.
Proof.
  unfold qsum at 1. simpl. rewrite fold_left_Qplus_acc. ring.
Qed.

Lemma qsum_app (l1 l2 : list Q) : (qsum (l1 ++ l2) == qsum l1 + qsum l2)%Q.
Proof.
  induction l1 as [|x l1 IH]; simpl.
  - unfold qsum at 2. simpl. ring.
  - rewrite !qsum_cons, IH. ring.
Qed.

Lemma qsum_nonneg (l : list Q) : Forall (fun v => 0 <= v)%Q l -> (0 <= qsum l)%Q.
Proof.
  induction 1 as [|x l Hx _ IH].
  - apply Qle_refl.
  - rewrite qsum_cons. lra.
Qed.

Lemma qsum_zero (l : list Q) : Forall (fun v => v == 0)%Q l -> (qsum l == 0)%Q.
Proof.
  induction 1 as [|x l Hx _ IH].
  - reflexivity.
  - rewrite qsum_cons, Hx, IH. ring.
Qed.

Lemma squares_nonneg {A : Type} (f : A -> Q) (l : list A) :
  Forall (fun v => 0 <= v)%Q (map (fun a => f a ^ 2)%Q l).
Proof.
  apply Forall_forall. intros v Hv. apply in_map_iff in Hv. destruct Hv as [a [<- _]].
  simpl. nra.
Qed.

Lemma log_lik_of_nonpos (lik_var : Q) (m : nat) (X : list (list Q)) (z : list Q) :
  (0 < lik_var)%Q -> (log_lik_of lik_var m X z <= 0)%Q.
Proof.
  intros Hlv. unfold log_lik_of.
  pose proof (qsum_nonneg _ (squares_nonneg (fun row => predict m z (tl row) - hd 0 row)%Q X))
    as Hs.
  set (s := qsum _) in *.
  assert (H : (0 <= s / lik_var)%Q).
  { apply Qle_shift_div_l; [exact Hlv|]. lra. }
  assert (E : (- s / lik_var == - (s / lik_var))%Q)
    by (field; intros E; rewrite E in Hlv; apply (Qlt_irrefl 0); exact Hlv).
  rewrite E. lra.
Qed.

Lemma log_prior_of_nonpos (prior_var : Q) (z : list Q) :
  (0 <= prior_var)%Q -> (log_prior_of prior_var z <= 0)%Q.
Proof.
  intros Hpv. unfold log_prior_of.
  assert (Hs : (0 <= qsum (map (fun a => a * a) z))%Q).
  { apply qsum_nonneg. apply Forall_forall. intros v Hv.
    apply in_map_iff in Hv. destruct Hv as [a [<- _]]. nra. }
  set (s := qsum _) in *. nra.
Qed.

(** ** [log_prob]: the values *)

Lemma log_prob_entry (self : LinearModel.t) (m N B i : nat) (xs zs : tensor) :
  LinearModel.weight_dim self = [m; 1] ->
  shape xs = [N; S m] -> wf xs -> N <> 1 ->
  shape zs = [B; S m] -> wf zs -> i < B ->
  exists t, LinearModel.log_prob self xs zs = Some t /\ length (data t) = B
    /\ nth i (data t) 0%Q = joint_of self m (rows xs) (nth i (rows zs) []).
Proof.
  intros Hwd Hxs Hwx HN Hzs Hwz Hi.
  assert (Lz : length (rows zs) = B)
    by (destruct (mat_rows zs _ _ Hzs Hwz) as [_ [_ L]]; exact L).
  eexists. split; [apply (log_prob_value self m N B); solve [assumption | lia]|].
  unfold vec. cbn [data]. rewrite length_map. split; [exact Lz|].
  rewrite (nth_indep _ 0%Q (joint_of self m (rows xs) [])) by (rewrite length_map; lia).
  apply (map_nth (joint_of self m (rows xs))).
Qed.

(** C10: [prior_variance] multiplies the penalty. For every weight vector
    [z] of the minibatch with [sum(z^2) > 0] the log prior term of
    [log_prob] is [-prior_variance * sum(z^2)], strictly smaller for a
    strictly larger [prior_variance]; and wherever [log_prob] is defined
    (a model with one output dimension, a dataset that does not have
    exactly one row), the entry of [log_prob] for [z] is strictly smaller
    as well, by [(prior_variance2 - prior_variance1) * sum(z^2)], all else
    being equal. *)
Theorem log_prior_decreasing (self1 self2 : LinearModel.t) (B V i : nat) (zs : tensor) :
  shape zs = [B; V] -> wf zs -> i < B ->
  (0 < qsum (map (fun a => a * a) (nth i (rows zs) [])))%Q ->
  (LinearModel.prior_variance self1 < LinearModel.prior_variance self2)%Q ->
  (exists p1 p2,
     LinearModel.log_prior self1 zs = Some p1 /\ LinearModel.log_prior self2 zs = Some p2
     /\ (nth i (data p1) 0 == - LinearModel.prior_variance self1
                                * qsum (map (fun a => a * a) (nth i (rows zs) [])))%Q
     /\ (nth i (data p2) 0 == - LinearModel.prior_variance self2
                                * qsum (map (fun a => a * a) (nth i (rows zs) [])))%Q
     /\ (nth i (data p2) 0 < nth i (data p1) 0)%Q)
  /\ (forall (m N : nat) (xs : tensor),
        LinearModel.weight_dim self1 = [m; 1] -> LinearModel.weight_dim self2 = [m; 1] ->
        LinearModel.lik_variance self1 = LinearModel.lik_variance self2 ->
        V = S m -> shape xs = [N; S m] -> wf xs -> N <> 1 ->
        exists t1 t2,
          LinearModel.log_prob self1 xs zs = Some t1
          /\ LinearModel.log_prob self2 xs zs = Some t2
          /\ (nth i (data t2) 0 < nth i (data t1) 0)%Q
          /\ (nth i (data t1) 0 - nth i (data t2) 0
              == (LinearModel.prior_variance self2 - LinearModel.prior_variance self1)
                 * qsum (map (fun a => a * a) (nth i (rows zs) [])))%Q).
Proof.
  intros Hzs Hwz Hi Hpos Hlt. split.
  - destruct (mat_rows zs B V Hzs Hwz) as [Ez [Uz Lz]].
    assert (Hnth : forall pv, nth i (map (log_prior_of pv) (rows zs)) 0%Q
                              = log_prior_of pv (nth i (rows zs) [])).
    { intros pv. rewrite (nth_indep _ 0%Q (log_prior_of pv [])) by (rewrite length_map; lia).
      apply (map_nth (log_prior_of pv)). }
    exists (vec (map (log_prior_of (LinearModel.prior_variance self1)) (rows zs))),
           (vec (map (log_prior_of (LinearModel.prior_variance self2)) (rows zs))).
    split; [rewrite Ez at 1; apply log_prior_mat; exact Uz|].
    split; [rewrite Ez at 1; apply log_prior_mat; exact Uz|].
    cbn [vec data]. rewrite !Hnth. unfold log_prior_of.
    split; [reflexivity|]. split; [reflexivity|].
    set (s := qsum _) in *. nra.
  - intros m N xs Hwd1 Hwd2 Hlv HV Hxs Hwx HN. subst V.
    destruct (log_prob_entry self1 m N B i xs zs Hwd1 Hxs Hwx HN Hzs Hwz Hi)
      as [t1 [E1 [_ V1]]].
    destruct (log_prob_entry self2 m N B i xs zs Hwd2 Hxs Hwx HN Hzs Hwz Hi)
      as [t2 [E2 [_ V2]]].
    exists t1, t2. split; [exact E1|]. split; [exact E2|].
    rewrite V1, V2. unfold joint_of, log_prior_of. rewrite Hlv.
    set (s := qsum _) in *. set (l := log_lik_of _ _ _ _).
    split; [nra | ring].
Qed.

Lemma log_prior_decreasing_witness :
  (exists p1 p2,
     LinearModel.log_prior model11 batch2 = Some p1
     /\ LinearModel.log_prior (LinearModel.mk [1; 1] (1 # 100) (1 # 10) 2) batch2 = Some p2
     /\ (nth 1 (data p1) 0 == - (1 # 100) * qsum (map (fun a => a * a) (nth 1 (rows batch2) [])))%Q
     /\ (nth 1 (data p2) 0 == - (1 # 10) * qsum (map (fun a => a * a) (nth 1 (rows batch2) [])))%Q
     /\ (nth 1 (data p2) 0 < nth 1 (data p1) 0)%Q)
  /\ (exists t1 t2,
        LinearModel.log_prob model11 data3 batch2 = Some t1
        /\ LinearModel.log_prob (LinearModel.mk [1; 1] (1 # 100) (1 # 10) 2) data3 batch2
           = Some t2
        /\ (nth 1 (data t2) 0 < nth 1 (data t1) 0)%Q
        /\ (nth 1 (data t1) 0 - nth 1 (data t2) 0
            == ((1 # 10) - (1 # 100)) * qsum (map (fun a => a * a) (nth 1 (rows batch2) [])))%Q).
Proof.
  assert (H : (0 < qsum (map (fun a => a * a) (nth 1 (rows batch2) [])))%Q) by reflexivity.
  assert (L : Qlt (LinearModel.prior_variance model11)
                  (LinearModel.prior_variance (LinearModel.mk [1; 1] (1 # 100) (1 # 10) 2)))
    by reflexivity.
  assert (I : 1 < 2) by lia.
  destruct (log_prior_decreasing model11 (LinearModel.mk [1; 1] (1 # 100) (1 # 10) 2)
              2 2 1 batch2 eq_refl eq_refl I H L) as [P T].
  split; [exact P|]. apply (T 1 3 data3); try reflexivity. discriminate.
Defined.


(** X8: with a positive likelihood variance and a prior variance that is not
    negative, no entry of [log_prob] is positive. *)
Theorem log_prob_nonpositive (self : LinearModel.t) (m N B : nat) (xs zs : tensor) :
  LinearModel.weight_dim self = [m; 1] ->
  shape xs = [N; S m] -> wf xs -> N <> 1 ->
  shape zs = [B; S m] -> wf zs -> 1 <= B ->
  (0 < LinearModel.lik_variance self)%Q -> (0 <= LinearModel.prior_variance self)%Q ->
  exists t, LinearModel.log_prob self xs zs = Some t
            /\ Forall (fun v => v <= 0)%Q (data t).
Proof.
  intros Hwd Hxs Hwx HN Hzs Hwz HB Hlv Hpv.
  eexists. split; [apply (log_prob_value self m N B); assumption|].
  unfold vec. cbn [data]. apply Forall_forall. intros v Hv.
  apply in_map_iff in Hv. destruct Hv as [z [<- _]]. unfold joint_of.
  pose proof (log_lik_of_nonpos _ m (rows xs) z Hlv).
  pose proof (log_prior_of_nonpos _ z Hpv). lra.
Qed.

Lemma joint_of_exact_fit (self : LinearModel.t) (m : nat) (X : list (list Q)) (z : list Q) :
  ~ (LinearModel.lik_variance self == 0)%Q ->
  Forall (fun row => predict m z (tl row) == hd 0 row)%Q X ->
  (joint_of self m X z
   == - LinearModel.prior_variance self * qsum (map (fun a => a * a) z))%Q.
Proof.
  intros Hlv Hfit. unfold joint_of, log_lik_of, log_prior_of.
  assert (Hs : (qsum (map (fun row => (predict m z (tl row) - hd 0 row) ^ 2) X) == 0)%Q).
  { apply qsum_zero. apply Forall_forall. intros v Hin.
    apply in_map_iff in Hin. destruct Hin as [row [<- Hrow]].
    rewrite Forall_forall in Hfit. rewrite (Hfit row Hrow). simpl. ring. }
  rewrite Hs. field. exact Hlv.
Qed.

(** X9: at a weight vector that predicts every output of the dataset exactly,
    the likelihood term vanishes and the entry of [log_prob] is the log
    prior alone; on a dataset without rows this is so at every weight
    vector. *)
Theorem log_prob_exact_fit (self : LinearModel.t) (m N B i : nat) (xs zs : tensor) :
  LinearModel.weight_dim self = [m; 1] ->
  shape xs = [N; S m] -> wf xs -> N <> 1 ->
  shape zs = [B; S m] -> wf zs -> i < B ->
  ~ (LinearModel.lik_variance self == 0)%Q ->
  Forall (fun row => predict m (nth i (rows zs) []) (tl row) == hd 0 row)%Q (rows xs) ->
  exists t, LinearModel.log_prob self xs zs = Some t
    /\ (nth i (data t) 0
        == - LinearModel.prior_variance self
           * qsum (map (fun a => a * a) (nth i (rows zs) [])))%Q.
Proof.
  intros Hwd Hxs Hwx HN Hzs Hwz Hi Hlv Hfit.
  destruct (log_prob_entry self m N B i xs zs) as [t [Ht [_ Hv]]]; try assumption.
  exists t. split; [exact Ht|]. rewrite Hv.
  apply joint_of_exact_fit; assumption.
Qed.

Lemma qsum_perm (l l' : list Q) : Permutation l l' -> (qsum l == qsum l')%Q.
Proof.
  induction 1 as [|x l l' _ IH|x y l|l l' l'' _ IH1 _ IH2].
  - reflexivity.
  - rewrite !qsum_cons, IH. reflexivity.
  - rewrite !qsum_cons. ring.
  - rewrite IH1. exact IH2.
Qed.

(** X10: the entries of [log_prob] do not depend on the order of the rows of
    the dataset (in exact arithmetic). *)
Theorem log_prob_row_order (self : LinearModel.t) (m N B i : nat) (xs xs' zs : tensor) :
  LinearModel.weight_dim self = [m; 1] ->
  shape xs = [N; S m] -> wf xs -> shape xs' = [N; S m] -> wf xs' -> N <> 1 ->
  shape zs = [B; S m] -> wf zs -> i < B ->
  Permutation (rows xs) (rows xs') ->
  exists t t', LinearModel.log_prob self xs zs = Some t
    /\ LinearModel.log_prob self xs' zs = Some t'
    /\ (nth i (data t) 0 == nth i (data t') 0)%Q.
Proof.
  intros Hwd Hxs Hwx Hxs' Hwx' HN Hzs Hwz Hi Hperm.
  destruct (log_prob_entry self m N B i xs zs) as [t [Ht [_ Hv]]]; try assumption.
  destruct (log_prob_entry self m N B i xs' zs) as [t' [Ht' [_ Hv']]]; try assumption.
  exists t, t'. split; [exact Ht|]. split; [exact Ht'|].
  rewrite Hv, Hv'. unfold joint_of, log_lik_of.
  rewrite (qsum_perm _ _ (Permutation_map _ Hperm)). reflexivity.
Qed.

(** X11: a larger likelihood variance gives a larger entry of [log_prob]
    wherever the weight vector does not fit the dataset exactly. *)
Theorem log_prob_increasing_in_lik_variance (self1 self2 : LinearModel.t)
    (m N B i : nat) (xs zs : tensor) :
  LinearModel.weight_dim self1 = [m; 1] -> LinearModel.weight_dim self2 = [m; 1] ->
  LinearModel.prior_variance self1 = LinearModel.prior_variance self2 ->
  shape xs = [N; S m] -> wf xs -> N <> 1 ->
  shape zs = [B; S m] -> wf zs -> i < B ->
  (0 < LinearModel.lik_variance self1)%Q ->
  (LinearModel.lik_variance self1 < LinearModel.lik_variance self2)%Q ->
  (0 < qsum (map (fun row => (predict m (nth i (rows zs) []) (tl row) - hd 0 row) ^ 2)
                 (rows xs)))%Q ->
  exists t1 t2, LinearModel.log_prob self1 xs zs = Some t1
    /\ LinearModel.log_prob self2 xs zs = Some t2
    /\ (nth i (data t1) 0 < nth i (data t2) 0)%Q.
Proof.
  intros Hwd1 Hwd2 Hpv Hxs Hwx HN Hzs Hwz Hi Hlv1 Hlt Hres.
  destruct (log_prob_entry self1 m N B i xs zs) as [t1 [Ht1 [_ Hv1]]]; try assumption.
  destruct (log_prob_entry self2 m N B i xs zs) as [t2 [Ht2 [_ Hv2]]]; try assumption.
  exists t1, t2. split; [exact Ht1|]. split; [exact Ht2|].
  rewrite Hv1, Hv2. unfold joint_of, log_lik_of. rewrite Hpv.
  set (s := qsum _) in *. set (p := log_prior_of _ _).
  set (a := LinearModel.lik_variance self1) in *.
  set (b := LinearModel.lik_variance self2) in *.
  assert (Hb : (0 < b)%Q) by lra.
  assert (Hinv : (/ b < / a)%Q) by (apply (Qinv_lt_contravar a b Hlv1 Hb); exact Hlt).
  assert (Hia : (0 < / a)%Q) by (apply Qinv_lt_0_compat; exact Hlv1).
  unfold Qdiv. set (ia := (/ a)%Q) in *. set (ib := (/ b)%Q) in *. nra.
Qed.

Lemma rows_append (c N1 N2 : nat) (xs1 xs2 xs12 : tensor) :
  shape xs1 = [N1; c] -> wf xs1 -> shape xs2 = [N2; c] -> wf xs2 ->
  shape xs12 = [N1 + N2; c] -> data xs12 = data xs1 ++ data xs2 ->
  rows xs12 = rows xs1 ++ rows xs2.
Proof.
  intros H1 W1 H2 W2 H12 D12.
  destruct (mat_rows xs1 N1 c H1 W1) as [E1 [U1 L1]].
  destruct (mat_rows xs2 N2 c H2 W2) as [E2 [U2 L2]].
  assert (D1 : data xs1 = concat (rows xs1)) by (rewrite E1 at 1; reflexivity).
  assert (D2 : data xs2 = concat (rows xs2)) by (rewrite E2 at 1; reflexivity).
  unfold rows at 1. rewrite H12, D12, D1, D2, <- concat_app.
  rewrite <- L1, <- L2, <- length_app. apply chunks_concat.
  apply Forall_app. split; assumption.
Qed.

(** X12: the likelihood adds up over the data: on two datasets put one after
    the other, an entry of [log_prob] is the sum of the entries on the two
    datasets, with the log prior counted once. *)
Theorem log_prob_datasets_add (self : LinearModel.t) (m N1 N2 B i : nat)
    (xs1 xs2 xs12 zs : tensor) :
  LinearModel.weight_dim self = [m; 1] ->
  shape xs1 = [N1; S m] -> wf xs1 -> N1 <> 1 ->
  shape xs2 = [N2; S m] -> wf xs2 -> N2 <> 1 ->
  shape xs12 = [N1 + N2; S m] -> data xs12 = data xs1 ++ data xs2 -> N1 + N2 <> 1 ->
  shape zs = [B; S m] -> wf zs -> i < B ->
  exists t1 t2 t12, LinearModel.log_prob self xs1 zs = Some t1
    /\ LinearModel.log_prob self xs2 zs = Some t2
    /\ LinearModel.log_prob self xs12 zs = Some t12
    /\ (nth i (data t12) 0
        + log_prior_of (LinearModel.prior_variance self) (nth i (rows zs) [])
        == nth i (data t1) 0 + nth i (data t2) 0)%Q.
Proof.
  intros Hwd H1 W1 HN1 H2 W2 HN2 H12 D12 HN12 Hzs Hwz Hi.
  assert (W12 : wf xs12).
  { unfold wf in *. rewrite D12, length_app, W1, W2, H1, H2, H12. simpl. lia. }
  destruct (log_prob_entry self m N1 B i xs1 zs) as [t1 [Ht1 [_ Hv1]]]; try assumption.
  destruct (log_prob_entry self m N2 B i xs2 zs) as [t2 [Ht2 [_ Hv2]]]; try assumption.
  destruct (log_prob_entry self m (N1 + N2) B i xs12 zs) as [t12 [Ht12 [_ Hv12]]];
    try assumption.
  exists t1, t2, t12. repeat (split; [assumption|]).
  rewrite Hv1, Hv2, Hv12, (rows_append (S m) N1 N2 xs1 xs2 xs12) by assumption.
  unfold joint_of, log_lik_of. rewrite map_app, qsum_app. unfold Qdiv. ring.
Qed.

(** ** [build_toy_dataset]: errors and the generated rows *)

Lemma odd_half (n : nat) : Nat.odd n = true -> n = 2 * (n / 2) + 1.
Proof.
  intros H. apply Nat.odd_spec in H. destruct H as [h ->].
  replace (2 * h + 1) with (1 + h * 2) by lia.
  rewrite Nat.div_add by discriminate. simpl. lia.
Qed.

Lemma odd_inputs_fail (n : nat) (l : list Q) :
  Nat.odd n = true -> length l = n ->
  (do y <- t_add (t_scale (75 # 1000) (vec (inputs_of n))) (vec l);
   do x <- tf_reshape (t_div (t_sub_scalar (vec (inputs_of n)) 4) 4) [n; 1];
   do y <- tf_reshape y [n; 1];
   do data <- np_concatenate1 y x;
   Some (tf_constant data)) = None.
Proof.
  intros Hodd Hd. apply odd_half in Hodd. unfold inputs_of. set (h := n / 2) in *.
  set (xs := np_linspace 0 2 h ++ np_linspace 6 8 h).
  assert (Hx : length xs = 2 * h)
    by (unfold xs; rewrite length_app, !linspace_length; lia).
  unfold t_scale, t_sub_scalar, t_div. rewrite !t_map_vec.
  unfold t_add, broadcast, rank, vec. cbn [shape data length]. unfold pad.
  cbn [length Nat.max Nat.sub repeat app]. rewrite !length_map, Hx, Hd.
  destruct h as [|h'].
  - subst n. cbn [bshape bind Nat.eqb Nat.mul Nat.add bdata]. cbn [flat_map seq].
    unfold tf_reshape. cbn [data numel fold_right length map]. rewrite !length_map.
    destruct xs; [reflexivity | discriminate].
  - assert (Hb : bshape [2 * S h'] [n] = None).
    { cbn [bshape bind].
      destruct (Nat.eqb_spec (2 * S h') n) as [E|_]; [lia|].
      destruct (Nat.eqb_spec (2 * S h') 1) as [E|_]; [lia|].
      destruct (Nat.eqb_spec n 1) as [E|_]; [lia|]. reflexivity. }
    rewrite Hb. reflexivity.
Qed.

(** X14: for an odd number of samples the generator raises, whatever the
    noise standard deviation: the inputs are one short of the noise, or the
    standard deviation is negative. The seed has been reset to 0 by then;
    the noise has been drawn only for a positive standard deviation. *)
Theorem build_toy_dataset_odd_raises {rng : Type} (seed_rng : Z -> rng)
    (standard_normal : rng -> Q * rng) (n : nat) (noise_std : Q) (g : global rng) :
  Nat.odd n = true ->
  fst (build_toy_dataset seed_rng standard_normal n noise_std g) = None
  /\ ((0 < noise_std)%Q ->
      snd (build_toy_dataset seed_rng standard_normal n noise_std g)
      = mkGlobal (snd (draws standard_normal n (seed_rng 0%Z))) (Some 0%Z))
  /\ (~ (0 < noise_std)%Q ->
      snd (build_toy_dataset seed_rng standard_normal n noise_std g)
      = mkGlobal (seed_rng 0%Z) (Some 0%Z)).
Proof.
  intros Hodd. unfold build_toy_dataset, norm_rvs, set_seed. cbn [np_random tf_seed].
  destruct (Qle_bool 0 noise_std) eqn:Ele; cbn [negb].
  - apply Qle_bool_iff in Ele.
    destruct (Qeq_bool noise_std 0) eqn:Eeq.
    + apply Qeq_bool_iff in Eeq. cbn [fst snd bind]. split.
      * apply (odd_inputs_fail n _ Hodd). rewrite length_map, repeat_length. reflexivity.
      * split; [|reflexivity]. intros Hpos. rewrite Eeq in Hpos.
        exfalso. apply (Qlt_irrefl 0). exact Hpos.
    + apply Qeq_bool_neq in Eeq.
      pose proof (draws_length standard_normal n (seed_rng 0%Z)) as Hd.
      destruct (draws standard_normal n (seed_rng 0%Z)) as [vs r]. cbn [fst snd bind] in *.
      split.
      * apply (odd_inputs_fail n _ Hodd). rewrite length_map. exact Hd.
      * split; [reflexivity|]. intros Hnpos. exfalso. apply Hnpos.
        apply Qle_lteq in Ele. destruct Ele as [H|H]; [exact H|].
        exfalso. apply Eeq. symmetry. exact H.
  - cbn [fst snd]. split; [reflexivity|]. split; [|reflexivity].
    intros Hpos. apply Qlt_le_weak, Qle_bool_iff in Hpos. congruence.
Qed.

(** X15: the stored inputs are normalised: in the first half of the table they
    lie between -1 and -1/2, in the second half between 1/2 and 1. *)
Theorem build_toy_dataset_input_range {rng : Type} (seed_rng : Z -> rng)
    (standard_normal : rng -> Q * rng) (n : nat) (noise_std : Q) (g : global rng) :
  Nat.even n = true -> (0 <= noise_std)%Q ->
  exists table,
    fst (build_toy_dataset seed_rng standard_normal n noise_std g) = Some table
    /\ forall i, i < n ->
         (i < n / 2 -> (- (1) <= nth 1 (nth i (rows table) []) 0 <= - (1 # 2))%Q)
         /\ (n / 2 <= i -> (1 # 2 <= nth 1 (nth i (rows table) []) 0 <= 1)%Q).
Proof.
  intros Heven Hs.
  destruct (build_toy_dataset_rows seed_rng standard_normal n noise_std g Heven Hs)
    as [table [Ht [_ [_ [Hr [Hl [Hx He]]]]]]].
  exists table. split; [exact Ht|]. intros i Hi.
  rewrite Hr, generated_row by assumption. unfold sample_row. cbn [nth fst snd].
  pose proof (linspace_range 0 2 (n / 2)) as R1.
  pose proof (linspace_range 6 8 (n / 2)) as R2.
  rewrite Forall_forall in R1, R2. unfold inputs_of in *.
  rewrite length_app, !linspace_length in Hx.
  split; intros Hh.
  - rewrite app_nth1 by (rewrite linspace_length; exact Hh).
    assert (Hin : (0 <= nth i (np_linspace 0 2 (n / 2)) 0 <= 2)%Q).
    { apply R1; [discriminate|]. apply nth_In. rewrite linspace_length. exact Hh. }
    set (x := nth i _ _) in *.
    assert (E : ((x - 4) / 4 == (x - 4) * (1 # 4))%Q) by (field).
    rewrite E. lra.
  - rewrite app_nth2 by (rewrite linspace_length; exact Hh). rewrite linspace_length.
    assert (Hin : (6 <= nth (i - n / 2) (np_linspace 6 8 (n / 2)) 0 <= 8)%Q).
    { apply R2; [discriminate|]. apply nth_In. rewrite linspace_length. lia. }
    set (x := nth (i - n / 2) _ _) in *.
    assert (E : ((x - 4) / 4 == (x - 4) * (1 # 4))%Q) by (field).
    rewrite E. lra.
Qed.

(** X16: in the coordinates of the table the generating line has slope 0.3 and
    intercept 0.3: every row holds [0.3 * input + 0.3] plus its noise. *)
Theorem build_toy_dataset_line {rng : Type} (seed_rng : Z -> rng)
    (standard_normal : rng -> Q * rng) (n : nat) (noise_std : Q) (g : global rng) :
  Nat.even n = true -> (0 <= noise_std)%Q ->
  exists table,
    fst (build_toy_dataset seed_rng standard_normal n noise_std g) = Some table
    /\ forall i, i < n ->
         (nth 0 (nth i (rows table) []) 0
          == (3 # 10) * nth 1 (nth i (rows table) []) 0 + (3 # 10)
             + nth i (noise_of seed_rng standard_normal n noise_std) 0)%Q.
Proof.
  intros Heven Hs.
  destruct (build_toy_dataset_rows seed_rng standard_normal n noise_std g Heven Hs)
    as [table [Ht [_ [_ [Hr [_ [Hx He]]]]]]].
  exists table. split; [exact Ht|]. intros i Hi.
  rewrite Hr, generated_row by assumption. unfold sample_row. cbn [nth fst snd].
  field.
Qed.

(** X18: without noise the weight vector (slope 0.3, intercept 0.3) predicts
    every generated output exactly: its entry of [log_prob] is its log
    prior, for every model with one input and one output dimension. *)
Theorem generated_line_fits {rng : Type} (seed_rng : Z -> rng)
    (standard_normal : rng -> Q * rng) (n : nat) (g : global rng)
    (self : LinearModel.t) (B i : nat) (zs : tensor) :
  LinearModel.weight_dim self = [1; 1] -> ~ (LinearModel.lik_variance self == 0)%Q ->
  Nat.even n = true ->
  shape zs = [B; 2] -> wf zs -> i < B -> nth i (rows zs) [] = [3 # 10; 3 # 10]%Q ->
  exists table t,
    fst (build_toy_dataset seed_rng standard_normal n 0 g) = Some table
    /\ LinearModel.log_prob self table zs = Some t
    /\ (nth i (data t) 0 == - LinearModel.prior_variance self * (9 # 50))%Q.
Proof.
  intros Hwd Hlv Heven Hzs Hwz Hi Hz.
  destruct (build_toy_dataset_rows seed_rng standard_normal n 0 g Heven (Qle_refl 0))
    as [table [Ht [Hs [Hw [Hr _]]]]].
  assert (Hn1 : n <> 1) by (intros ->; discriminate).
  destruct (log_prob_entry self 1 n B i table zs) as [t [Hlp [_ Hv]]]; try assumption.
  exists table, t. split; [exact Ht|]. split; [exact Hlp|].
  rewrite Hv, joint_of_exact_fit.
  - rewrite Hz. unfold qsum. simpl. ring.
  - exact Hlv.
  - rewrite Hz, Hr. apply Forall_forall. intros row Hrow.
    apply in_map_iff in Hrow. destruct Hrow as [[x e] [<- Hin]].
    apply in_combine_r in Hin. unfold noise_of in Hin. cbn [Qeq_bool] in Hin.
    change (Qeq_bool 0 0) with true in Hin. cbv iota in Hin.
    apply in_map_iff in Hin. destruct Hin as [v [<- _]].
    unfold sample_row, predict, dot, qsum. simpl. field.
Qed.

(** ** The curves of the plot *)

Lemma concat_singletons (l : list Q) : concat (map (fun a => [a]) l) = l.
Proof. induction l as [|a l IH]; simpl; congruence. Qed.

Lemma expand_vec (l : list Q) :
  tf_expand_dims (vec l) 1 = Some (mat 1 (map (fun a => [a]) l)).
Proof.
  unfold tf_expand_dims, vec, mat, rank. cbn [shape data length Nat.leb firstn skipn app].
  rewrite length_map, concat_singletons. reflexivity.
Qed.

Lemma tensor_vec (t : tensor) (c : nat) : shape t = [c] -> wf t -> t = vec (data t).
Proof.
  destruct t as [s d]. unfold wf, vec. simpl. intros -> H. simpl in H. f_equal.
  f_equal. lia.
Qed.

(** The value of [sample_functions] for a model with one input and one
    output dimension, by rows. *)
Lemma sample_functions_value {rng : Type} (seed_rng : Z -> rng)
    (standard_normal : rng -> Q * rng) (model : LinearModel.t) (mean std : tensor) :
  LinearModel.weight_dim model = [1; 1] ->
  shape mean = [2] -> wf mean -> shape std = [2] -> wf std ->
  exists curves,
    sample_functions seed_rng standard_normal model 2 mean std = Some curves
    /\ shape curves = [plot_samples; plot_points]
    /\ rows curves
       = map (fun z => map (fun a => predict 1 z [a]) (np_linspace (- (8)) 8 plot_points))
             (sampled_weights seed_rng standard_normal 2 (data mean) (data std)).
Proof.
  intros Hwd Hm Hwm Hs Hws.
  destruct mean as [sm dm]. destruct std as [ss ds]. unfold wf in Hwm, Hws.
  cbn [shape data] in *. subst sm ss. cbn [numel fold_right] in Hwm, Hws.
  assert (Lm : length dm = 2) by lia. assert (Ls : length ds = 2) by lia.
  clear Hwm Hws.
  unfold sample_functions, sampled_weights, randn.
  pose proof (draws_length standard_normal (plot_samples * 2) (seed_rng 0%Z)) as Hd.
  destruct (draws standard_normal (plot_samples * 2) (seed_rng 0%Z)) as [vs r].
  cbn [fst] in *.
  destruct (mat_rows (mkT [plot_samples; 2] vs) plot_samples 2 eq_refl) as [En [Un Ln]];
    [unfold wf; cbn [shape data numel fold_right]; lia|].
  unfold rows in En, Un, Ln. cbn [shape data] in En, Un, Ln.
  set (E := chunks 2 plot_samples vs) in *.
  rewrite En.
  replace (mkT [2] ds) with (vec ds) by (unfold vec; rewrite Ls; reflexivity).
  replace (mkT [2] dm) with (vec dm) by (unfold vec; rewrite Lm; reflexivity).
  replace (mat 2 E) with (mat (length ds) E) by (rewrite Ls; reflexivity).
  assert (Un' : uniform (length ds) E) by (rewrite Ls; exact Un).
  unfold t_mul. rewrite broadcast_mat_vec by exact Un'. cbn [bind].
  set (E1 := map (fun r0 => map2 Qmult r0 ds) E).
  assert (U1 : uniform (length dm) E1).
  { unfold E1. apply Forall_forall. intros r0 Hr. apply in_map_iff in Hr.
    destruct Hr as [e [<- He]]. unfold uniform in Un. rewrite Forall_forall in Un.
    rewrite map2_length; rewrite (Un e He); congruence. }
  rewrite Ls, <- Lm. unfold t_add. rewrite broadcast_mat_vec by exact U1. cbn [bind].
  set (Zs := map (fun r0 => map2 Qplus r0 dm) E1).
  assert (HZs : Zs = map (fun e => map2 Qplus (map2 Qmult e ds) dm) E)
    by (unfold Zs, E1; rewrite map_map; reflexivity).
  assert (UZ : uniform 2 Zs).
  { unfold Zs. apply Forall_forall. intros r0 Hr. apply in_map_iff in Hr.
    destruct Hr as [e [<- He]]. unfold uniform in U1. rewrite Forall_forall in U1.
    rewrite map2_length; rewrite (U1 e He); congruence. }
  assert (LZ : length Zs = plot_samples) by (unfold Zs, E1; rewrite !length_map; exact Ln).
  unfold tf_constant. rewrite expand_vec. cbn [bind]. rewrite Lm.
  rewrite unpack_mat by exact UZ. cbn [bind].
  set (inputs := np_linspace (- (8)) 8 plot_points).
  assert (Li : length inputs = plot_points) by apply linspace_length.
  set (X := map (fun a => [a]) inputs).
  set (mu := fun z => map (predict 1 z) X).
  rewrite (mapM_map _ (fun t => vec (mu (data t)))).
  2:{ intros t Ht. apply in_map_iff in Ht. destruct Ht as [z [<- Hz]].
      unfold uniform in UZ. rewrite Forall_forall in UZ.
      apply mapping_mat; auto.
      - unfold X. apply Forall_forall. intros r0 Hr. apply in_map_iff in Hr.
        destruct Hr as [a [<- _]]. reflexivity.
      - unfold X. rewrite length_map, linspace_length. unfold plot_points. lia. }
  cbn [bind]. rewrite map_map. cbn [data]. rewrite <- (map_map mu vec).
  assert (Hmu : uniform plot_points (map mu Zs)).
  { apply Forall_forall. intros r0 Hr. apply in_map_iff in Hr. destruct Hr as [z [<- _]].
    unfold mu, X. rewrite !length_map. exact Li. }
  rewrite (pack_vecs _ _ Hmu)
    by (destruct Zs; [discriminate LZ | discriminate]).
  eexists. split; [reflexivity|]. unfold mat. cbn [shape].
  rewrite length_map, LZ. split; [reflexivity|].
  unfold rows. cbn [shape data]. rewrite <- LZ, <- (length_map mu Zs).
  rewrite chunks_concat by exact Hmu. rewrite HZs, !map_map.
  apply map_ext. intros e. unfold mu, X. rewrite map_map. reflexivity.
Qed.

(** X19: for a model with one input and one output dimension the callback
    computes 10 curves over 400 input points: curve [s] holds, for every
    input point [a], the prediction [a * w + b] of the sampled weight
    vector [(w, b)], the [s]-th standard normal draw scaled by [std] and
    shifted by [mean]. *)
Theorem sample_functions_curves {rng : Type} (seed_rng : Z -> rng)
    (standard_normal : rng -> Q * rng) (model : LinearModel.t) (mean std : tensor) :
  LinearModel.weight_dim model = [1; 1] ->
  shape mean = [2] -> wf mean -> shape std = [2] -> wf std ->
  exists curves,
    sample_functions seed_rng standard_normal model 2 mean std = Some curves
    /\ shape curves = [plot_samples; plot_points]
    /\ rows curves
       = map (fun z => map (fun a => predict 1 z [a]) (np_linspace (- (8)) 8 plot_points))
             (sampled_weights seed_rng standard_normal 2 (data mean) (data std)).
Proof. exact (sample_functions_value seed_rng standard_normal model mean std). Qed.

(** [sample_functions] applies the model to a matrix with one column. *)
Lemma sample_functions_input_dim {rng : Type} (seed_rng : Z -> rng)
    (standard_normal : rng -> Q * rng) (model : LinearModel.t) (m n V : nat)
    (mean std : tensor) :
  LinearModel.weight_dim model = [m; n] -> m <> 1 ->
  sample_functions seed_rng standard_normal model V mean std = None.
Proof.
  intros Hwd Hm. unfold sample_functions, randn.
  destruct (draws standard_normal (plot_samples * V) (seed_rng 0%Z)) as [vs r].
  destruct (t_mul (mkT [plot_samples; V] vs) std) as [scaled|]; [|reflexivity]. cbn [bind].
  destruct (t_add scaled mean) as [zs|]; [|reflexivity]. cbn [bind].
  unfold tf_constant. rewrite expand_vec. cbn [bind].
  destruct (tf_unpack zs) as [[|z zl]|]; try reflexivity. cbn [bind].
  rewrite mapM_head_fails; [reflexivity|].
  apply (mapping_needs_columns model m n); [exact Hwd|].
  intros k. unfold mat. cbn [shape]. intros [= _ E]. apply Hm. symmetry. exact E.
Qed.

(** X20: for a model whose input dimension is not one the plotting code of the
    callback raises, whatever the variational parameters are: the input
    points form a matrix with a single column. *)
Theorem sample_functions_one_input_only {rng : Type} (seed_rng : Z -> rng)
    (standard_normal : rng -> Q * rng) (model : LinearModel.t) (m n V : nat)
    (mean std : tensor) :
  LinearModel.weight_dim model = [m; n] -> m <> 1 ->
  sample_functions seed_rng standard_normal model V mean std = None.
Proof.
  exact (sample_functions_input_dim seed_rng standard_normal model m n V mean std).
Qed.

(** ** The further properties at concrete inputs *)

Lemma mapping_affine_witness :
  LinearModel.mapping (LinearModel.mk [1; 2] (1 # 100) (1 # 100) 4)
                      (mkT [2; 1] [2; 3]%Q) (mkT [4] [1; 2; 3; 4]%Q)
  = Some (mkT (squeezed 2 2)
              (flat_map (fun row => map (affine 1 2 [1; 2; 3; 4]%Q row) (seq 0 2))
                        (rows (mkT [2; 1] [2; 3]%Q)))).
Proof.
  apply (mapping_affine (LinearModel.mk [1; 2] (1 # 100) (1 # 100) 4) 1 2 2
                        (mkT [2; 1] [2; 3]%Q) (mkT [4] [1; 2; 3; 4]%Q));
    reflexivity.
Defined.

Lemma mapping_accepts_num_vars_witness :
  LinearModel.mapping model11 (mkT [3; 1] [2; 4; 6]%Q) (mkT [2] [2; 1]%Q) <> None
  <-> 2 = LinearModel.num_vars model11.
Proof.
  apply (mapping_accepts_num_vars 1 1 (1 # 100) (1 # 100) model11 3 2
                                  (mkT [3; 1] [2; 4; 6]%Q) (mkT [2] [2; 1]%Q));
    reflexivity.
Defined.

Lemma mapping_wrong_input_witness :
  LinearModel.mapping model11 data3 (mkT [2] [2; 1]%Q) = None.
Proof.
  apply (mapping_wrong_input model11 1 1 data3 (mkT [2] [2; 1]%Q)).
  - reflexivity.
  - intros k H. discriminate H.
Defined.

Lemma log_prob_empty_minibatch_witness :
  LinearModel.log_prob model11 data3 (mkT [0; 2] []) = None.
Proof.
  apply (log_prob_empty_minibatch model11 2 data3 (mkT [0; 2] [])). reflexivity.
Defined.

Lemma log_prob_wrong_width_witness :
  LinearModel.log_prob model11 data3 (mkT [2; 3] [1; 0; 2; 1; 0; 1]%Q) = None.
Proof.
  apply (log_prob_wrong_width model11 1 1 2 3 data3 (mkT [2; 3] [1; 0; 2; 1; 0; 1]%Q)).
  - reflexivity.
  - reflexivity.
  - reflexivity.
  - repeat constructor.
  - discriminate.
Defined.

Lemma log_prob_many_outputs_witness :
  LinearModel.log_prob (LinearModel.mk [1; 2] (1 # 100) (1 # 100) 4) data3
                       (mkT [1; 4] [1; 2; 3; 4]%Q) = None.
Proof.
  apply (log_prob_many_outputs (LinearModel.mk [1; 2] (1 # 100) (1 # 100) 4) 1 2 3 1
                               data3 (mkT [1; 4] [1; 2; 3; 4]%Q)).
  - reflexivity.
  - repeat constructor.
  - reflexivity.
  - reflexivity.
  - discriminate.
  - discriminate.
  - reflexivity.
  - reflexivity.
  - repeat constructor.
Defined.

Lemma log_prob_nonpositive_witness :
  exists t, LinearModel.log_prob model11 data3 batch2 = Some t
            /\ Forall (fun v => v <= 0)%Q (data t).
Proof.
  apply (log_prob_nonpositive model11 1 3 2 data3 batch2).
  - reflexivity.
  - reflexivity.
  - reflexivity.
  - discriminate.
  - reflexivity.
  - reflexivity.
  - repeat constructor.
  - reflexivity.
  - discriminate.
Defined.

Lemma log_prob_exact_fit_witness :
  exists t, LinearModel.log_prob model11 data_on_line batch_line = Some t
    /\ (nth 0 (data t) 0
        == - LinearModel.prior_variance model11
           * qsum (map (fun a => a * a) (nth 0 (rows batch_line) [])))%Q.
Proof.
  apply (log_prob_exact_fit model11 1 2 1 0 data_on_line batch_line).
  - reflexivity.
  - reflexivity.
  - reflexivity.
  - discriminate.
  - reflexivity.
  - reflexivity.
  - repeat constructor.
  - intros H. discriminate H.
  - repeat constructor.
Defined.

Lemma log_prob_row_order_witness :
  exists t t', LinearModel.log_prob model11 data3 batch2 = Some t
    /\ LinearModel.log_prob model11 data3_swapped batch2 = Some t'
    /\ (nth 1 (data t) 0 == nth 1 (data t') 0)%Q.
Proof.
  apply (log_prob_row_order model11 1 3 2 1 data3 data3_swapped batch2).
  - reflexivity.
  - reflexivity.
  - reflexivity.
  - reflexivity.
  - reflexivity.
  - discriminate.
  - reflexivity.
  - reflexivity.
  - repeat constructor.
  - apply perm_swap.
Defined.

Lemma log_prob_increasing_in_lik_variance_witness :
  exists t1 t2, LinearModel.log_prob model11 data3 batch2 = Some t1
    /\ LinearModel.log_prob (LinearModel.mk [1; 1] (1 # 10) (1 # 100) 2) data3 batch2 = Some t2
    /\ (nth 0 (data t1) 0 < nth 0 (data t2) 0)%Q.
Proof.
  apply (log_prob_increasing_in_lik_variance
           model11 (LinearModel.mk [1; 1] (1 # 10) (1 # 100) 2) 1 3 2 0 data3 batch2).
  - reflexivity.
  - reflexivity.
  - reflexivity.
  - reflexivity.
  - reflexivity.
  - discriminate.
  - reflexivity.
  - reflexivity.
  - repeat constructor.
  - reflexivity.
  - reflexivity.
  - reflexivity.
Defined.

Lemma log_prob_datasets_add_witness :
  exists t1 t2 t12, LinearModel.log_prob model11 data_on_line batch2 = Some t1
    /\ LinearModel.log_prob model11 data3 batch2 = Some t2
    /\ LinearModel.log_prob model11 data_both batch2 = Some t12
    /\ (nth 1 (data t12) 0
        + log_prior_of (LinearModel.prior_variance model11) (nth 1 (rows batch2) [])
        == nth 1 (data t1) 0 + nth 1 (data t2) 0)%Q.
Proof.
  apply (log_prob_datasets_add model11 1 2 3 2 1 data_on_line data3 data_both batch2).
  - reflexivity.
  - reflexivity.
  - reflexivity.
  - discriminate.
  - reflexivity.
  - reflexivity.
  - discriminate.
  - reflexivity.
  - reflexivity.
  - discriminate.
  - reflexivity.
  - reflexivity.
  - repeat constructor.
Defined.

Lemma build_toy_dataset_odd_raises_witness :
  fst (build_toy_dataset lcg_seed lcg_normal 3 (1 # 10) state17) = None
  /\ ((0 < 1 # 10)%Q ->
      snd (build_toy_dataset lcg_seed lcg_normal 3 (1 # 10) state17)
      = mkGlobal (snd (draws lcg_normal 3 (lcg_seed 0%Z))) (Some 0%Z))
  /\ (~ (0 < 1 # 10)%Q ->
      snd (build_toy_dataset lcg_seed lcg_normal 3 (1 # 10) state17)
      = mkGlobal (lcg_seed 0%Z) (Some 0%Z)).
Proof.
  apply (build_toy_dataset_odd_raises lcg_seed lcg_normal 3 (1 # 10) state17). reflexivity.
Defined.

Lemma build_toy_dataset_input_range_witness :
  exists table,
    fst (build_toy_dataset lcg_seed lcg_normal 4 (1 # 10) state17) = Some table
    /\ forall i, i < 4 ->
         (i < 4 / 2 -> (- (1) <= nth 1 (nth i (rows table) []) 0 <= - (1 # 2))%Q)
         /\ (4 / 2 <= i -> (1 # 2 <= nth 1 (nth i (rows table) []) 0 <= 1)%Q).
Proof.
  apply (build_toy_dataset_input_range lcg_seed lcg_normal 4 (1 # 10) state17).
  - reflexivity.
  - discriminate.
Defined.

Lemma build_toy_dataset_line_witness :
  exists table,
    fst (build_toy_dataset lcg_seed lcg_normal 4 (1 # 10) state17) = Some table
    /\ forall i, i < 4 ->
         (nth 0 (nth i (rows table) []) 0
          == (3 # 10) * nth 1 (nth i (rows table) []) 0 + (3 # 10)
             + nth i (noise_of lcg_seed lcg_normal 4 (1 # 10)) 0)%Q.
Proof.
  apply (build_toy_dataset_line lcg_seed lcg_normal 4 (1 # 10) state17).
  - reflexivity.
  - discriminate.
Defined.

Lemma log_prob_generated_dataset_witness :
  exists table,
    fst (build_toy_dataset lcg_seed lcg_normal 4 (1 # 10) state17) = Some table
    /\ LinearModel.log_prob model11 table batch2
       = Some (vec (map (joint_of model11 1 (rows table)) (rows batch2))).
Proof.
  apply (log_prob_generated_dataset lcg_seed lcg_normal 4 (1 # 10) state17 2 batch2).
  - reflexivity.
  - discriminate.
  - reflexivity.
  - reflexivity.
  - repeat constructor.
Defined.

Lemma generated_line_fits_witness :
  exists table t,
    fst (build_toy_dataset lcg_seed lcg_normal 4 0 state17) = Some table
    /\ LinearModel.log_prob model11 table batch_true_line = Some t
    /\ (nth 0 (data t) 0 == - LinearModel.prior_variance model11 * (9 # 50))%Q.
Proof.
  apply (generated_line_fits lcg_seed lcg_normal 4 state17 model11 1 0 batch_true_line).
  - reflexivity.
  - intros H. discriminate H.
  - reflexivity.
  - reflexivity.
  - reflexivity.
  - repeat constructor.
  - reflexivity.
Defined.

Lemma sample_functions_curves_witness :
  exists curves,
    sample_functions lcg_seed lcg_normal model11 2 (mkT [2] [0; 0]%Q) (mkT [2] [1; 1]%Q)
    = Some curves
    /\ shape curves = [plot_samples; plot_points]
    /\ rows curves
       = map (fun z => map (fun a => predict 1 z [a]) (np_linspace (- (8)) 8 plot_points))
             (sampled_weights lcg_seed lcg_normal 2 [0; 0]%Q [1; 1]%Q).
Proof.
  apply (sample_functions_curves lcg_seed lcg_normal model11
                                 (mkT [2] [0; 0]%Q) (mkT [2] [1; 1]%Q));
    reflexivity.
Defined.

Lemma sample_functions_one_input_only_witness :
  sample_functions lcg_seed lcg_normal model21 3 (mkT [3] [0; 0; 0]%Q) (mkT [3] [1; 1; 1]%Q)
  = None.
Proof.
  apply (sample_functions_one_input_only lcg_seed lcg_normal model21 2 1 3
                                         (mkT [3] [0; 0; 0]%Q) (mkT [3] [1; 1; 1]%Q)).
  - reflexivity.
  - discriminate.
Defined.

Example sample_functions_first_curve :
  option_map (fun t => (shape t, map Qred (firstn 3 (data t))))
             (sample_functions lcg_seed lcg_normal model11 2
                               (mkT [2] [0; 1]%Q) (mkT [2] [1; 1]%Q))
  = Some ([10; 400], [25; 3309 # 133; 3293 # 133]%Q).
Proof. vm_compute. reflexivity. Qed.

(** X13: a weight vector gets the same value alone as in a minibatch:
    [log_prob] on the minibatch that holds only row [i] of [zs] returns
    the one entry that [log_prob] on [zs] has at [i]. *)
Theorem log_prob_batching (self : LinearModel.t) (m N B i : nat) (xs zs : tensor) :
  LinearModel.weight_dim self = [m; 1] ->
  shape xs = [N; S m] -> wf xs -> N <> 1 ->
  shape zs = [B; S m] -> wf zs -> i < B ->
  exists t ti, LinearModel.log_prob self xs zs = Some t
    /\ LinearModel.log_prob self xs (mkT [1; S m] (nth i (rows zs) [])) = Some ti
    /\ data ti = [nth i (data t) 0%Q].
Proof.
  intros Hwd Hxs Hwx HN Hzs Hwz Hi.
  destruct (log_prob_entry self m N B i xs zs) as [t [Ht [_ Hv]]]; try assumption.
  destruct (mat_rows zs B (S m) Hzs Hwz) as [_ [Uz Lz]].
  assert (Hz : length (nth i (rows zs) []) = S m).
  { unfold uniform in Uz. rewrite Forall_forall in Uz. apply Uz, nth_In. lia. }
  set (z := nth i (rows zs) []) in *.
  exists t. eexists. split; [exact Ht|].
  split.
  - apply (log_prob_value self m N 1); try assumption; try reflexivity.
    unfold wf. cbn [shape data numel fold_right]. lia.
  - unfold vec, rows. cbn [shape data]. rewrite Hv.
    unfold chunks. cbn [seq map]. rewrite (chunk_whole (S m) z Hz). reflexivity.
Qed.

Lemma log_prob_batching_witness :
  exists t ti, LinearModel.log_prob model11 data3 batch2 = Some t
    /\ LinearModel.log_prob model11 data3 (mkT [1; 2] (nth 1 (rows batch2) [])) = Some ti
    /\ data ti = [nth 1 (data t) 0%Q].
Proof.
  apply (log_prob_batching model11 1 3 2 1 data3 batch2).
  - reflexivity.
  - reflexivity.
  - reflexivity.
  - discriminate.
  - reflexivity.
  - reflexivity.
  - repeat constructor.
Defined.

Lemma log_prob_one_row_witness :
  LinearModel.log_prob model11 (mkT [1; 2] [1; 2]%Q) batch2 = None.
Proof.
  apply (log_prob_one_row model11 1 2 (mkT [1; 2] [1; 2]%Q) batch2).
  - reflexivity.
  - reflexivity.
  - reflexivity.
  - reflexivity.
  - reflexivity.
  - repeat constructor.
Defined.

(** ** [print_progress] *)

Section ProgressFacts.

Import String.
Local Open Scope string_scope.









(** The callback at concrete iterations: the line of a multiple of
    [n_print], no line in between, and the raise of [n_print = 0]. *)
Example progress_line_10 : Progress.progress_line 10 [3 # 2; 5 # 2]%Q = "iter 10 loss 2.00 ".
Proof. reflexivity. Qed.

Example progress_line_negative_mean :
  Progress.progress_line 5 [- (1 # 3); - (1 # 3)]%Q = "iter 5 loss -0.33 ".
Proof. reflexivity. Qed.

Example progress_line_tie : Progress.progress_line 0 [1 # 8]%Q = "iter 0 loss 0.12 ".
Proof. reflexivity. Qed.

Example progress_line_no_loss : Progress.progress_line 15 []%list = "iter 15 loss nan ".
Proof. reflexivity. Qed.

Example print_progress_between :
  Progress.print_progress lcg_seed lcg_normal inference5 7 [3 # 2]%Q
  = Progress.mkOutcome []%list false.
Proof. reflexivity. Qed.

Example print_progress_zero_period :
  Progress.print_progress lcg_seed lcg_normal (MFVI.mk 0 model11 unit_family data3) 0
                          [3 # 2]%Q
  = Progress.mkOutcome []%list true.
Proof. reflexivity. Qed.

Lemma firstn_skipn_nth (j : nat) (row : list Q) :
  j < List.length row -> firstn 1 (skipn j row) = [nth j row 0%Q]%list.
Proof.
  revert row. induction j as [|j IH]; intros [|a row] H; simpl in H; try lia.
  - reflexivity.
  - simpl skipn. cbn [nth]. apply IH. lia.
Qed.

Lemma flat_map_nth (j C : nat) (L : list (list Q)) :
  uniform C L -> j < C ->
  flat_map (fun row => firstn 1 (skipn j row)) L = map (fun row => nth j row 0%Q) L.
Proof.
  intros Un Hj. induction Un as [|row L Hr HL IH]; [reflexivity|].
  cbn [flat_map map]. rewrite firstn_skipn_nth by lia. rewrite IH. reflexivity.
Qed.

Lemma col_at_matrix (j N C : nat) (t : tensor) :
  shape t = [N; C]%list -> wf t -> j < C ->
  col_at j t = Some (vec (map (fun row => nth j row 0%Q) (rows t))).
Proof.
  intros Hs Hw Hj. destruct (mat_rows t N C Hs Hw) as [_ [Un Ln]].
  unfold col_at. unfold rows in *. rewrite Hs in *.
  destruct (Nat.ltb_spec j C) as [_|H]; [|lia].
  cbn [numel fold_right]. rewrite !Nat.mul_1_r. f_equal. unfold vec.
  rewrite length_map, Ln. f_equal. apply (flat_map_nth j C); assumption.
Qed.

Lemma print_progress_printing {rng : Type} (seed_rng : Z -> rng)
    (standard_normal : rng -> Q * rng) (self : MFVI.t) (t : Z) (losses : list Q) :
  MFVI.n_print self <> 0%Z -> (MFVI.n_print self | t)%Z ->
  Progress.print_progress seed_rng standard_normal self t losses
  = match sample_functions seed_rng standard_normal (MFVI.model self)
                           (MFGaussian.num_vars (MFVI.variational self))
                           (MFGaussian.m (MFVI.variational self))
                           (MFGaussian.s (MFVI.variational self)) with
    | None => Progress.mkOutcome [Progress.Stdout (Progress.progress_line t losses)]%list true
    | Some outputs =>
        match col_at 0 (MFVI.data self), col_at 1 (MFVI.data self) with
        | Some y, Some x =>
            Progress.mkOutcome
              [Progress.Stdout (Progress.progress_line t losses); Progress.Cla;
               Progress.PlotPoints x y;
               Progress.PlotCurves (np_linspace (- (8)) 8 plot_points) outputs;
               Progress.SetYlim (-2) 3; Progress.Draw]%list false
        | _, _ =>
            Progress.mkOutcome [Progress.Stdout (Progress.progress_line t losses)]%list true
        end
    end.
Proof.
  intros Hn Hd. unfold Progress.print_progress.
  destruct (Z.eqb_spec (MFVI.n_print self) 0) as [E|_]; [contradiction|].
  apply Z.mod_divide in Hd; [|exact Hn]. rewrite Hd. reflexivity.
Qed.

(** X21: at a multiple of [n_print], for a model with one input and one
    output dimension, variational parameters of length two and a dataset
    with at least two columns, the callback prints its line and then clears
    the figure, plots the data (column 1 against column 0), plots the 10
    sampled curves over the 400 input points, sets the vertical range to
    [-2, 3] and draws, in this order, without raising. *)
Theorem print_progress_redraws {rng : Type} (seed_rng : Z -> rng)
    (standard_normal : rng -> Q * rng) (self : MFVI.t) (t : Z) (losses : list Q)
    (N C : nat) :
  MFVI.n_print self <> 0%Z -> (MFVI.n_print self | t)%Z ->
  LinearModel.weight_dim (MFVI.model self) = [1; 1]%list ->
  MFGaussian.num_vars (MFVI.variational self) = 2 ->
  shape (MFGaussian.m (MFVI.variational self)) = [2]%list ->
  wf (MFGaussian.m (MFVI.variational self)) ->
  shape (MFGaussian.s (MFVI.variational self)) = [2]%list ->
  wf (MFGaussian.s (MFVI.variational self)) ->
  shape (MFVI.data self) = [N; C]%list -> wf (MFVI.data self) -> 2 <= C ->
  exists (line : string) (outputs : tensor),
    Progress.print_progress seed_rng standard_normal self t losses
    = Progress.mkOutcome
        [Progress.Stdout line; Progress.Cla;
         Progress.PlotPoints (vec (map (fun row => nth 1 row 0%Q) (rows (MFVI.data self))))
                             (vec (map (fun row => nth 0 row 0%Q) (rows (MFVI.data self))));
         Progress.PlotCurves (np_linspace (- (8)) 8 plot_points) outputs;
         Progress.SetYlim (-2) 3; Progress.Draw]%list false
    /\ shape outputs = [10; 400]%list
    /\ rows outputs
       = map (fun z => map (fun a => predict 1 z [a]%list) (np_linspace (- (8)) 8 400))
             (sampled_weights seed_rng standard_normal 2
                              (data (MFGaussian.m (MFVI.variational self)))
                              (data (MFGaussian.s (MFVI.variational self)))).
Proof.
  intros Hn Hd Hwd Hv Hm Hwm Hs Hws Hsd Hwfd HC.
  rewrite print_progress_printing by assumption. rewrite Hv.
  destruct (sample_functions_value seed_rng standard_normal (MFVI.model self)
              (MFGaussian.m (MFVI.variational self)) (MFGaussian.s (MFVI.variational self))
              Hwd Hm Hwm Hs Hws) as [curves [E [Hsh Hrows]]].
  rewrite E. rewrite (col_at_matrix 0 N C) by (assumption || lia).
  rewrite (col_at_matrix 1 N C) by (assumption || lia).
  exists (Progress.progress_line t losses), curves.
  split; [reflexivity|]. split; [exact Hsh | exact Hrows].
Qed.

(** X22: for a model whose input dimension is not one the callback, at a
    multiple of [n_print], prints its line and then raises: nothing is
    plotted. *)
Theorem print_progress_one_input_only {rng : Type} (seed_rng : Z -> rng)
    (standard_normal : rng -> Q * rng) (self : MFVI.t) (t : Z) (losses : list Q)
    (m n : nat) :
  MFVI.n_print self <> 0%Z -> (MFVI.n_print self | t)%Z ->
  LinearModel.weight_dim (MFVI.model self) = [m; n]%list -> m <> 1 ->
  exists line : string,
    Progress.print_progress seed_rng standard_normal self t losses
    = Progress.mkOutcome [Progress.Stdout line]%list true.
Proof.
  intros Hn Hd Hwd Hm. rewrite print_progress_printing by assumption.
  rewrite (sample_functions_input_dim seed_rng standard_normal (MFVI.model self) m n)
    by assumption.
  eexists. reflexivity.
Qed.

(** X23: for a dataset with fewer than two columns the callback, at a
    multiple of [n_print], prints its line and then raises on reading the
    columns: nothing is plotted. *)
Theorem print_progress_needs_two_columns {rng : Type} (seed_rng : Z -> rng)
    (standard_normal : rng -> Q * rng) (self : MFVI.t) (t : Z) (losses : list Q)
    (N C : nat) :
  MFVI.n_print self <> 0%Z -> (MFVI.n_print self | t)%Z ->
  shape (MFVI.data self) = [N; C]%list -> C < 2 ->
  exists line : string,
    Progress.print_progress seed_rng standard_normal self t losses
    = Progress.mkOutcome [Progress.Stdout line]%list true.
Proof.
  intros Hn Hd Hsd HC. rewrite print_progress_printing by assumption.
  destruct (sample_functions _ _ _ _ _ _) as [outputs|]; [|eexists; reflexivity].
  unfold col_at. rewrite Hsd.
  destruct C as [|[|C]]; [| |lia]; cbn [Nat.ltb Nat.leb]; eexists; reflexivity.
Qed.

Lemma print_progress_redraws_witness :
  exists (line : string) (outputs : tensor),
    Progress.print_progress lcg_seed lcg_normal inference5 10 [3 # 2; 5 # 2]%Q
    = Progress.mkOutcome
        [Progress.Stdout line; Progress.Cla;
         Progress.PlotPoints (vec (map (fun row => nth 1 row 0%Q) (rows (MFVI.data inference5))))
                             (vec (map (fun row => nth 0 row 0%Q) (rows (MFVI.data inference5))));
         Progress.PlotCurves (np_linspace (- (8)) 8 plot_points) outputs;
         Progress.SetYlim (-2) 3; Progress.Draw]%list false
    /\ shape outputs = [10; 400]%list
    /\ rows outputs
       = map (fun z => map (fun a => predict 1 z [a]%list) (np_linspace (- (8)) 8 400))
             (sampled_weights lcg_seed lcg_normal 2
                              (data (MFGaussian.m (MFVI.variational inference5)))
                              (data (MFGaussian.s (MFVI.variational inference5)))).
Proof.
  apply (print_progress_redraws lcg_seed lcg_normal inference5 10 [3 # 2; 5 # 2]%Q 3 2);
    try reflexivity; try discriminate; try lia.
  exists 2%Z. reflexivity.
Defined.

Lemma print_progress_one_input_only_witness :
  exists line : string,
    Progress.print_progress lcg_seed lcg_normal inference5_two_inputs 10 [3 # 2]%Q
    = Progress.mkOutcome [Progress.Stdout line]%list true.
Proof.
  apply (print_progress_one_input_only lcg_seed lcg_normal inference5_two_inputs 10
                                       [3 # 2]%Q 2 1);
    try reflexivity; try discriminate.
  exists 2%Z. reflexivity.
Defined.

Lemma print_progress_needs_two_columns_witness :
  exists line : string,
    Progress.print_progress lcg_seed lcg_normal
      (MFVI.mk 5 model11 unit_family (mkT [3; 1] [1; 2; 3]%Q)) 10 [3 # 2]%Q
    = Progress.mkOutcome [Progress.Stdout line]%list true.
Proof.
  apply (print_progress_needs_two_columns lcg_seed lcg_normal
           (MFVI.mk 5 model11 unit_family (mkT [3; 1] [1; 2; 3]%Q)) 10 [3 # 2]%Q 3 1);
    try reflexivity; try discriminate; try lia.
  exists 2%Z. reflexivity.
Defined.

End ProgressFacts.
